(** * ViT-Hand-Pose-Estimation: the model, the loss and the training loop

    A shallow embedding of [src/models/model.py] and [src/main.py].

    - Tensors are a shape and an indexing function into the reals; the
      float32 arithmetic of the framework is idealised as exact real
      arithmetic, and the one value of the code that has no real counterpart
      (the mean of a tensor without elements, [nan]) is kept apart.
    - Python exceptions are the [Raise] results of an error monad.
    - A module is the record its constructor builds from a [state_dict]; the
      constructors are modelled with their default arguments and keyword
      passing, because they decide the shapes the forward passes meet.
    - The training loop threads its local variables, the scheduler and the
      log of what it did (passes, scheduler steps, files saved) through an
      explicit state.  The passes over the data ([utils.epoch_train],
      [utils.epoch_eval]) are outside [src/]; the losses they append are
      parameters of the model.  Loss values are exact rationals.
    - The layers, [einops] patterns and the learning-rate scheduler are the
      framework's; they are modelled as the framework documents them, as far
      as this repository uses them.

    The file has three parts: the embedding of the source, the
    specifications the claims are stated with, and the proofs. *)

From Stdlib Require Import List Arith ZArith QArith Qround Reals Lra Lia.
From Stdlib Require Import String Ascii Bool DecimalString.
From Stdlib Require Lqa.
From Stdlib Require DecimalNat.
Import ListNotations.

Close Scope Q_scope.
Set Implicit Arguments.

(* ================================================================== *)
(** * Python results *)

Module Py.

(** The exceptions the modelled code can raise. *)
Inductive exn : Type :=
| RuntimeError (msg : string)
| AttributeError (attr : string)
| EinopsError (msg : string)
| IndexError (msg : string)
| ZeroDivisionError
| UnboundLocalError (var : string).

Inductive result (A : Type) : Type :=
| Ok (a : A)
| Raise (e : exn).

Arguments Ok {A} a.
Arguments Raise {A} e.

Definition bind {A B : Type} (c : result A) (k : A -> result B) : result B :=
  match c with
  | Ok a => k a
  | Raise e => Raise e
  end.

Definition is_ok {A : Type} (c : result A) : bool :=
  match c with Ok _ => true | Raise _ => false end.

End Py.

Export Py.

Declare Scope py_scope.
Delimit Scope py_scope with py.
Notation "x <- c ;; k" := (bind c (fun x => k))
  (at level 61, c at next level, right associativity) : py_scope.
Local Open Scope py_scope.

(* ================================================================== *)
(** * Tensors *)

Module Tensors.

Local Open Scope R_scope.

(** [Rsum n f] is f 0 + ... + f (n-1). *)
Fixpoint Rsum (n : nat) (f : nat -> R) : R :=
  match n with
  | O => 0
  | S k => Rsum k f + f k
  end.

(** A tensor: its shape and the value at each index (one coordinate per
    axis, outermost first).  Only the values at indices inside the shape
    matter. *)
Record Tensor : Type := mkTensor {
  shape : list nat;
  elem : list nat -> R
}.

Definition rank (x : Tensor) : nat := List.length (shape x).

Fixpoint numel (s : list nat) : nat :=
  match s with
  | [] => 1
  | n :: s' => (n * numel s')%nat
  end.

(** The sum of [f] over every index of the shape [s]. *)
Fixpoint sum_over (s : list nat) (f : list nat -> R) : R :=
  match s with
  | [] => f []
  | n :: s' => Rsum n (fun i => sum_over s' (fun idx => f (i :: idx)))
  end.

(** An index lies inside a shape. *)
Definition valid (s idx : list nat) : Prop := Forall2 lt idx s.

(** ** Broadcasting *)

(** Shapes are aligned at their last axis; an axis of size 1 stretches. *)
Fixpoint broadcast_rev (a b : list nat) : option (list nat) :=
  match a, b with
  | [], s => Some s
  | s, [] => Some s
  | x :: a', y :: b' =>
      match broadcast_rev a' b' with
      | None => None
      | Some s =>
          if (x =? y)%nat then Some (x :: s)
          else if (x =? 1)%nat then Some (y :: s)
          else if (y =? 1)%nat then Some (x :: s)
          else None
      end
  end.

Definition broadcast_shapes (a b : list nat) : option (list nat) :=
  option_map (@rev nat) (broadcast_rev (rev a) (rev b)).

(** The index of the operand of shape [s] that the index [idx] of the
    broadcast result reads. *)
Definition bidx (s idx : list nat) : list nat :=
  map (fun di => if (fst di =? 1)%nat then O else snd di)
      (combine s (skipn (List.length idx - List.length s) idx)).

(** An elementwise binary operation ([*], [+], [-], [/] on tensors). *)
Definition ewise (op : R -> R -> R) (x y : Tensor) : result Tensor :=
  match broadcast_shapes (shape x) (shape y) with
  | Some s =>
      Ok (mkTensor s (fun idx =>
            op (elem x (bidx (shape x) idx)) (elem y (bidx (shape y) idx))))
  | None => Raise (RuntimeError "The size of tensor a must match the size of tensor b")
  end.

Definition tmul := ewise Rmult.
Definition tadd := ewise Rplus.
Definition tsub := ewise Rminus.
Definition tdiv := ewise Rdiv.

(** In-place [x += y]: the broadcast shape has to be the shape of [x]. *)
Definition iadd (x y : Tensor) : result Tensor :=
  match broadcast_shapes (shape x) (shape y) with
  | Some s =>
      if list_eq_dec Nat.eq_dec s (shape x)
      then Ok (mkTensor (shape x) (fun idx =>
                 elem x idx + elem y (bidx (shape y) idx)))
      else Raise (RuntimeError "output with shape doesn't match the broadcast shape")
  | None => Raise (RuntimeError "The size of tensor a must match the size of tensor b")
  end.

(** A tensor and a Python number. *)
Definition tmap (g : R -> R) (x : Tensor) : Tensor :=
  mkTensor (shape x) (fun idx => g (elem x idx)).

Definition tpow (x : Tensor) (n : nat) : Tensor := tmap (fun v => v ^ n) x.
Definition tadd_scalar (x : Tensor) (c : R) : Tensor := tmap (fun v => v + c) x.
Definition tdiv_scalar (x : Tensor) (c : R) : Tensor := tmap (fun v => v / c) x.

(** ** Reductions *)

(** [x.sum(-1)]: the last axis is summed away; on a tensor without axes
    [-1] is still an accepted axis and the tensor comes back as it is. *)
Definition sum_last (x : Tensor) : Tensor :=
  match shape x with
  | [] => x
  | _ :: _ =>
      mkTensor (removelast (shape x))
               (fun idx => Rsum (last (shape x) O) (fun i => elem x (idx ++ [i])))
  end.

(** A tensor without axes whose value may be [nan]. *)
Inductive scalar : Type :=
| NaN
| Real (r : R).

(** [torch.mean(x)]: the mean of all elements; [nan] when there are none. *)
Definition mean (x : Tensor) : scalar :=
  match numel (shape x) with
  | O => NaN
  | S _ => Real (sum_over (shape x) (elem x) / INR (numel (shape x)))
  end.

(** [c - s] for a Python number [c]. *)
Definition rsub (c : R) (s : scalar) : scalar :=
  match s with
  | NaN => NaN
  | Real r => Real (c - r)
  end.

End Tensors.

Export Tensors.

(* ================================================================== *)
(** * IoULoss *)

Module IoULoss.

Local Open Scope R_scope.

Definition EPSILON : R := 1 / 1000000.

(** [def op_sum(self, x): return x.sum(-1).sum(-1)] *)
Definition op_sum (x : Tensor) : Tensor := sum_last (sum_last x).

Definition forward (y_pred y_true : Tensor) : result scalar :=
  prod <- tmul y_true y_pred ;;
  let inter := op_sum prod in
  s <- tadd (op_sum (tpow y_true 2)) (op_sum (tpow y_pred 2)) ;;
  prod' <- tmul y_true y_pred ;;
  union <- tsub s (op_sum prod') ;;
  iou <- tdiv (tadd_scalar inter EPSILON) (tadd_scalar union EPSILON) ;;
  let iou := mean iou in
  Ok (rsub 1 iou).

End IoULoss.

(* ================================================================== *)
(** * The framework layers the model is assembled from *)

(** [state_dict]: the learned parameters by name.  A constructor draws its
    parameters at random and training changes them, so a module is built
    from an arbitrary [state_dict]; the constructors fix the shapes. *)
Definition state_dict : Type := string -> list nat -> R.

(** [nn.Sequential] *)
Fixpoint Sequential (layers : list (Tensor -> result Tensor)) (x : Tensor)
  : result Tensor :=
  match layers with
  | [] => Ok x
  | f :: rest => y <- f x ;; Sequential rest y
  end.

(** [nn.Dropout(p)]: the identity when [p = 0] (the value of every dropout
    rate in this repository unless a caller overrides it) and in evaluation
    mode; the random masking of training with [p > 0] is not modelled. *)
Definition Dropout (p : R) (x : Tensor) : result Tensor := Ok x.

Module Linear.

Local Open Scope R_scope.

Record t : Type := mk {
  in_features : nat;
  out_features : nat;
  weight : list nat -> R;   (* shape (out_features, in_features) *)
  bias : list nat -> R      (* shape (out_features) *)
}.

Definition init (prefix : string) (theta : state_dict) (n_in n_out : nat) : t :=
  mk n_in n_out (theta (prefix ++ "weight")%string) (theta (prefix ++ "bias")%string).

(** [y = x W^T + b] on the last axis. *)
Definition forward (self : t) (x : Tensor) : result Tensor :=
  match shape x with
  | [] => Raise (RuntimeError "mat1 and mat2 shapes cannot be multiplied")
  | _ :: _ =>
      if (last (shape x) O =? in_features self)%nat then
        Ok (mkTensor (removelast (shape x) ++ [out_features self])
              (fun idx =>
                 let o := last idx O in
                 Rsum (in_features self)
                      (fun i => elem x (removelast idx ++ [i]) * weight self [o; i])
                 + bias self [o]))
      else Raise (RuntimeError "mat1 and mat2 shapes cannot be multiplied")
  end.

End Linear.

Module LayerNorm.

Local Open Scope R_scope.

Record t : Type := mk {
  normalized_shape : nat;
  eps : R;
  weight : list nat -> R;
  bias : list nat -> R
}.

Definition init (prefix : string) (theta : state_dict) (n : nat) : t :=
  mk n (1 / 100000) (theta (prefix ++ "weight")%string) (theta (prefix ++ "bias")%string).

Definition forward (self : t) (x : Tensor) : result Tensor :=
  match shape x with
  | [] => Raise (RuntimeError "Given normalized_shape, expected input with matching shape")
  | _ :: _ =>
      if (last (shape x) O =? normalized_shape self)%nat then
        Ok (mkTensor (shape x)
              (fun idx =>
                 let n := normalized_shape self in
                 let row := fun i => elem x (removelast idx ++ [i]) in
                 let mu := Rsum n row / INR n in
                 let var := Rsum n (fun i => (row i - mu) ^ 2) / INR n in
                 (elem x idx - mu) / sqrt (var + eps self)
                 * weight self [last idx O] + bias self [last idx O]))
      else Raise (RuntimeError "Given normalized_shape, expected input with matching shape")
  end.

End LayerNorm.

Module Conv2d.

Local Open Scope R_scope.

(** [nn.Conv2d(in_channels, out_channels, kernel_size, stride)]: no
    padding, no dilation, one group. *)
Record t : Type := mk {
  in_channels : nat;
  out_channels : nat;
  kernel_size : nat;
  stride : nat;
  weight : list nat -> R;   (* shape (out, in, kernel, kernel) *)
  bias : list nat -> R      (* shape (out) *)
}.

Definition init (prefix : string) (theta : state_dict)
    (c_in c_out kernel strd : nat) : t :=
  mk c_in c_out kernel strd
     (theta (prefix ++ "weight")%string) (theta (prefix ++ "bias")%string).

(** The window of the output position (i, j) starts at (i*stride,
    j*stride).  The model takes batched input (four axes); an input of three
    axes would be stopped by the [Rearrange] that follows the convolution in
    this repository. *)
Definition forward (self : t) (x : Tensor) : result Tensor :=
  match shape x with
  | [b; c; h; w] =>
      if negb (c =? in_channels self)%nat then
        Raise (RuntimeError "expected input to have in_channels channels")
      else if (stride self =? 0)%nat then
        Raise (RuntimeError "non-positive stride is not supported")
      else if ((h <? kernel_size self) || (w <? kernel_size self))%nat then
        Raise (RuntimeError "Kernel size can't be greater than actual input size")
      else
        let k := kernel_size self in
        let s := stride self in
        Ok (mkTensor [b; out_channels self; ((h - k) / s + 1)%nat; ((w - k) / s + 1)%nat]
              (fun idx =>
                 match idx with
                 | [n; o; i; j] =>
                     Rsum c (fun ci =>
                       Rsum k (fun u =>
                         Rsum k (fun v =>
                           weight self [o; ci; u; v]
                           * elem x [n; ci; (i * s + u)%nat; (j * s + v)%nat])))
                     + bias self [o]
                 | _ => 0
                 end))
  | _ => Raise (RuntimeError "Expected 4D input to conv2d")
  end.

End Conv2d.

(** ** einops and einsum, one definition per pattern of the source *)

Module einops.

Local Open Scope R_scope.

(** [Rearrange("b e (h) (w) -> b (h w) e")] *)
Definition rearrange_b_e_h_w__b_hw_e (x : Tensor) : result Tensor :=
  match shape x with
  | [b; e; h; w] =>
      Ok (mkTensor [b; (h * w)%nat; e]
            (fun idx =>
               match idx with
               | [n; k; c] => elem x [n; c; (k / w)%nat; (k mod w)%nat]
               | _ => 0
               end))
  | _ => Raise (EinopsError "Wrong shape: expected 4 dims")
  end.

(** [repeat(t, "() n e -> b n e", b=b)] *)
Definition repeat_1_n_e__b_n_e (x : Tensor) (b : nat) : result Tensor :=
  match shape x with
  | [u; n; e] =>
      if (u =? 1)%nat then
        Ok (mkTensor [b; n; e]
              (fun idx =>
                 match idx with
                 | [_; i; c] => elem x [O; i; c]
                 | _ => 0
                 end))
      else Raise (EinopsError "Shape mismatch, 1 != length of the unit axis")
  | _ => Raise (EinopsError "Wrong shape: expected 3 dims")
  end.

(** [rearrange(t, "b n (h d) -> b h n d", h=h)] *)
Definition rearrange_b_n_hd__b_h_n_d (x : Tensor) (h : nat) : result Tensor :=
  match shape x with
  | [b; n; e] =>
      if ((h =? 0) || negb (e mod h =? 0))%nat then
        Raise (EinopsError "Shape mismatch, can't divide axis")
      else
        let d := (e / h)%nat in
        Ok (mkTensor [b; h; n; d]
              (fun idx =>
                 match idx with
                 | [bi; hi; ni; di] => elem x [bi; ni; (hi * d + di)%nat]
                 | _ => 0
                 end))
  | _ => Raise (EinopsError "Wrong shape: expected 3 dims")
  end.

(** [rearrange(t, "b h n d -> b n (h d)")] *)
Definition rearrange_b_h_n_d__b_n_hd (x : Tensor) : result Tensor :=
  match shape x with
  | [b; h; n; d] =>
      Ok (mkTensor [b; n; (h * d)%nat]
            (fun idx =>
               match idx with
               | [bi; ni; j] => elem x [bi; (j / d)%nat; ni; (j mod d)%nat]
               | _ => 0
               end))
  | _ => Raise (EinopsError "Wrong shape: expected 4 dims")
  end.

(** [Reduce("b n e -> b e", reduction="mean")] *)
Definition reduce_mean_b_n_e__b_e (x : Tensor) : result Tensor :=
  match shape x with
  | [b; n; e] =>
      Ok (mkTensor [b; e]
            (fun idx =>
               match idx with
               | [bi; c] => Rsum n (fun i => elem x [bi; i; c]) / INR n
               | _ => 0
               end))
  | _ => Raise (EinopsError "Wrong shape: expected 3 dims")
  end.

End einops.

Module torch.

Local Open Scope R_scope.

(** [x.shape[0]] *)
Definition shape0 (x : Tensor) : result nat :=
  match shape x with
  | [] => Raise (IndexError "tuple index out of range")
  | b :: _ => Ok b
  end.

(** [torch.cat([a, x], dim=1)] *)
Definition cat1 (a x : Tensor) : result Tensor :=
  match shape a, shape x with
  | a0 :: a1 :: ar, x0 :: x1 :: xr =>
      if (a0 =? x0)%nat && (if list_eq_dec Nat.eq_dec ar xr then true else false) then
        Ok (mkTensor (a0 :: (a1 + x1)%nat :: ar)
              (fun idx =>
                 match idx with
                 | i0 :: i1 :: r =>
                     if (i1 <? a1)%nat then elem a (i0 :: i1 :: r)
                     else elem x (i0 :: (i1 - a1)%nat :: r)
                 | _ => 0
                 end))
      else Raise (RuntimeError "Sizes of tensors must match except in dimension 1")
  | _, _ => Raise (RuntimeError "Dimension out of range")
  end.

(** [torch.einsum("bhqd, bhkd -> bhqk", q, k)] *)
Definition einsum_bhqd_bhkd__bhqk (q k : Tensor) : result Tensor :=
  match shape q, shape k with
  | [b; h; nq; d], [b'; h'; nk; d'] =>
      if ((b =? b') && (h =? h') && (d =? d'))%nat then
        Ok (mkTensor [b; h; nq; nk]
              (fun idx =>
                 match idx with
                 | [bi; hi; qi; ki] =>
                     Rsum d (fun di => elem q [bi; hi; qi; di] * elem k [bi; hi; ki; di])
                 | _ => 0
                 end))
      else Raise (RuntimeError "einsum(): operands do not broadcast")
  | _, _ => Raise (RuntimeError "einsum(): subscripts do not match the operand")
  end.

(** [torch.einsum("bhal, bhlv -> bhav ", a, v)] *)
Definition einsum_bhal_bhlv__bhav (a v : Tensor) : result Tensor :=
  match shape a, shape v with
  | [b; h; na; l], [b'; h'; l'; d] =>
      if ((b =? b') && (h =? h') && (l =? l'))%nat then
        Ok (mkTensor [b; h; na; d]
              (fun idx =>
                 match idx with
                 | [bi; hi; ai; vi] =>
                     Rsum l (fun li => elem a [bi; hi; ai; li] * elem v [bi; hi; li; vi])
                 | _ => 0
                 end))
      else Raise (RuntimeError "einsum(): operands do not broadcast")
  | _, _ => Raise (RuntimeError "einsum(): subscripts do not match the operand")
  end.

(** [F.softmax(x, dim=1)]: the exponentials are normalised along the second
    axis. *)
Definition softmax_dim1 (x : Tensor) : result Tensor :=
  match shape x with
  | _ :: n1 :: _ =>
      Ok (mkTensor (shape x)
            (fun idx =>
               match idx with
               | i0 :: i1 :: r =>
                   exp (elem x (i0 :: i1 :: r))
                   / Rsum n1 (fun j => exp (elem x (i0 :: j :: r)))
               | _ => 0
               end))
  | _ => Raise (RuntimeError "Dimension out of range")
  end.

(** The methods of [torch.Tensor] by name, as far as this repository goes:
    the framework has [masked_fill] and [masked_fill_]; it has no
    [mask_fill]. *)
Definition Tensor_methods : list string :=
  ["sum"; "mean"; "shape"; "masked_fill"; "masked_fill_"]%string.

(** Attribute lookup on a tensor. *)
Definition getattr (name : string) : result string :=
  if existsb (String.eqb name) Tensor_methods then Ok name
  else Raise (AttributeError name).

End torch.

(** [str(n)] for a non-negative integer. *)
Definition str (n : nat) : string := NilZero.string_of_uint (Nat.to_uint n).

(* ================================================================== *)
(** * src/models/model.py *)

Module PatchEmbedding.

Record t : Type := mk {
  patch_size : nat;
  projection : Conv2d.t;      (* followed by the Rearrange *)
  class_token : Tensor;
  positions : Tensor
}.

(** [__init__(in_channels=3, patch_size=32, emb_size=768, img_size=224)];
    [img_size // patch_size] raises on a zero patch size. *)
Definition init (prefix : string) (theta : state_dict)
    (in_channels patch_size emb_size img_size : nat) : result t :=
  let projection :=
    Conv2d.init (prefix ++ "projection.0.") theta in_channels emb_size patch_size patch_size in
  let class_token := mkTensor [1; 1; emb_size] (theta (prefix ++ "class_token")%string) in
  if (patch_size =? 0)%nat then Raise ZeroDivisionError
  else
    let positions :=
      mkTensor [(img_size / patch_size) ^ 2 + 1; emb_size] (theta (prefix ++ "positions")%string) in
    Ok (mk patch_size projection class_token positions).

Definition forward (self : t) (x : Tensor) : result Tensor :=
  b <- torch.shape0 x ;;
  x <- Sequential [Conv2d.forward (projection self);
                   einops.rearrange_b_e_h_w__b_hw_e] x ;;
  (* utilize class tokens and prepend to input *)
  class_tokens <- einops.repeat_1_n_e__b_n_e (class_token self) b ;;
  x <- torch.cat1 class_tokens x ;;
  (* add position embedding *)
  x <- iadd x (positions self) ;;
  Ok x.

End PatchEmbedding.

Module MultiHeadAttention.

Local Open Scope R_scope.

Record t : Type := mk {
  emb_size : nat;
  num_heads : nat;
  keys : Linear.t;
  queries : Linear.t;
  values : Linear.t;
  attention_drop : R;
  projection : Linear.t
}.

(** [__init__(emb_size=512, num_heads=8, dropout=0)] *)
Definition init (prefix : string) (theta : state_dict)
    (emb_size num_heads : nat) (dropout : R) : t :=
  mk emb_size num_heads
     (Linear.init (prefix ++ "keys.") theta emb_size emb_size)
     (Linear.init (prefix ++ "queries.") theta emb_size emb_size)
     (Linear.init (prefix ++ "values.") theta emb_size emb_size)
     dropout
     (Linear.init (prefix ++ "projection.") theta emb_size emb_size).

(** The masking step: [energy.mask_fill(~mask, fill_value)].  The attribute
    is looked up on the tensor before the arguments of the call are
    evaluated; the value of the call is dropped by the source. *)
Definition masking (energy : Tensor) (mask : option Tensor) : result unit :=
  match mask with
  | None => Ok tt
  | Some _ =>
      (* fill_value = torch.finfo(torch.float32).min *)
      _ <- torch.getattr "mask_fill" ;;
      Ok tt
  end.

(** The body of [forward] down to the attention weights: the pair of
    [attention] (after the dropout) and [values]. *)
Definition attention (self : t) (x : Tensor) (mask : option Tensor)
  : result (Tensor * Tensor) :=
  (* split keys, queries, and values in num_heads *)
  k <- Linear.forward (keys self) x ;;
  keys <- einops.rearrange_b_n_hd__b_h_n_d k (num_heads self) ;;
  q <- Linear.forward (queries self) x ;;
  queries <- einops.rearrange_b_n_hd__b_h_n_d q (num_heads self) ;;
  v <- Linear.forward (values self) x ;;
  values <- einops.rearrange_b_n_hd__b_h_n_d v (num_heads self) ;;
  (* sum up over the last axis *)
  energy <- torch.einsum_bhqd_bhkd__bhqk queries keys ;;
  _ <- masking energy mask ;;
  let scaling := sqrt (INR (emb_size self)) in
  sm <- torch.softmax_dim1 energy ;;
  let attention := tdiv_scalar sm scaling in
  attention <- Dropout (attention_drop self) attention ;;
  Ok (attention, values).

Definition forward (self : t) (x : Tensor) (mask : option Tensor) : result Tensor :=
  av <- attention self x mask ;;
  (* dot product *)
  out <- torch.einsum_bhal_bhlv__bhav (fst av) (snd av) ;;
  out <- einops.rearrange_b_h_n_d__b_n_hd out ;;
  out <- Linear.forward (projection self) out ;;
  Ok out.

End MultiHeadAttention.

Module ResidualAdd.

(** [res = x; x = self.fn(x); x += res] *)
Definition forward (fn : Tensor -> result Tensor) (x : Tensor) : result Tensor :=
  let res := x in
  x <- fn x ;;
  x <- iadd x res ;;
  Ok x.

End ResidualAdd.

Module FeedForwardBlock.

Record t : Type := mk {
  fc1 : Linear.t;
  act : R -> R;       (* nn.GELU() *)
  drop_p : R;
  fc2 : Linear.t
}.

(** [__init__(emb_size, expansion=4, drop_p=0.0)]; [GELU] is the
    framework's activation function. *)
Definition init (prefix : string) (theta : state_dict) (GELU : R -> R)
    (emb_size expansion : nat) (drop_p : R) : t :=
  mk (Linear.init (prefix ++ "0.") theta emb_size (emb_size * expansion))
     GELU
     drop_p
     (Linear.init (prefix ++ "3.") theta (emb_size * expansion) emb_size).

Definition forward (self : t) : Tensor -> result Tensor :=
  Sequential [Linear.forward (fc1 self);
              (fun x => Ok (tmap (act self) x));
              Dropout (drop_p self);
              Linear.forward (fc2 self)].

End FeedForwardBlock.

(** The keyword arguments that travel from [ViT] through
    [TransformerEncoder] and [EncoderBlock] to [MultiHeadAttention]; [None]
    is an absent keyword. *)
Record kwargs : Type := mkKwargs {
  kw_emb_size : option nat;
  kw_drop_p : option R;
  kw_forward_expansion : option nat;
  kw_forward_drop_p : option R;
  kw_num_heads : option nat;
  kw_dropout : option R
}.

Definition no_kwargs : kwargs := mkKwargs None None None None None None.

Definition default {A : Type} (d : A) (o : option A) : A :=
  match o with Some a => a | None => d end.

Module EncoderBlock.

Record t : Type := mk {
  norm1 : LayerNorm.t;
  attn : MultiHeadAttention.t;
  drop1 : R;
  norm2 : LayerNorm.t;
  ff : FeedForwardBlock.t;
  drop2 : R
}.

(** [__init__(emb_size=768, drop_p=0.0, forward_expansion=4,
    forward_drop_p=0.0, ..kwargs)]; the remaining keywords go to
    [MultiHeadAttention(emb_size=emb_size, ..kwargs)], whose own defaults
    are [num_heads=8, dropout=0]. *)
Definition init (prefix : string) (theta : state_dict) (GELU : R -> R)
    (kw : kwargs) : t :=
  let emb_size := default 768 (kw_emb_size kw) in
  let drop_p := default 0%R (kw_drop_p kw) in
  let forward_expansion := default 4 (kw_forward_expansion kw) in
  let forward_drop_p := default 0%R (kw_forward_drop_p kw) in
  mk (LayerNorm.init (prefix ++ "0.fn.0.") theta emb_size)
     (MultiHeadAttention.init (prefix ++ "0.fn.1.") theta emb_size
        (default 8 (kw_num_heads kw)) (default 0%R (kw_dropout kw)))
     drop_p
     (LayerNorm.init (prefix ++ "1.fn.0.") theta emb_size)
     (FeedForwardBlock.init (prefix ++ "1.fn.1.") theta GELU emb_size
        forward_expansion forward_drop_p)
     drop_p.

Definition forward (self : t) : Tensor -> result Tensor :=
  Sequential
    [ResidualAdd.forward
       (Sequential [LayerNorm.forward (norm1 self);
                    (fun x => MultiHeadAttention.forward (attn self) x None);
                    Dropout (drop1 self)]);
     ResidualAdd.forward
       (Sequential [LayerNorm.forward (norm2 self);
                    FeedForwardBlock.forward (ff self);
                    Dropout (drop2 self)])].

End EncoderBlock.

Module TransformerEncoder.

Definition t : Type := list EncoderBlock.t.

(** [__init__(depth=12, ..kwargs)]:
    [[EncoderBlock(..kwargs) for _ in range(depth)]] *)
Definition init (prefix : string) (theta : state_dict) (GELU : R -> R)
    (depth : nat) (kw : kwargs) : t :=
  map (fun i => EncoderBlock.init (prefix ++ str i ++ ".") theta GELU kw)
      (seq 0 depth).

Definition forward (self : t) : Tensor -> result Tensor :=
  Sequential (map EncoderBlock.forward self).

End TransformerEncoder.

Module ClassificationHead.

Record t : Type := mk {
  norm : LayerNorm.t;
  fc : Linear.t
}.

(** [__init__(emb_size=768, out_channels=50)] *)
Definition init (prefix : string) (theta : state_dict)
    (emb_size out_channels : nat) : t :=
  mk (LayerNorm.init (prefix ++ "1.") theta emb_size)
     (Linear.init (prefix ++ "2.") theta emb_size out_channels).

Definition forward (self : t) : Tensor -> result Tensor :=
  Sequential [einops.reduce_mean_b_n_e__b_e;
              LayerNorm.forward (norm self);
              Linear.forward (fc self)].

End ClassificationHead.

Module ViT.

Record t : Type := mk {
  embedding : PatchEmbedding.t;
  encoder : TransformerEncoder.t;
  head : ClassificationHead.t
}.

(** [__init__(in_channels=3, patch_size=32, emb_size=768, img_size=224,
    depth=12, out_channels=50, ..kwargs)].  [emb_size] is a named argument
    of this constructor, so [..kwargs] never holds it: the encoder is built
    with the keywords that are left, and takes its own default width. *)
Definition init (theta : state_dict) (GELU : R -> R)
    (in_channels patch_size emb_size img_size depth out_channels : nat)
    (kw : kwargs) : result t :=
  let kw := mkKwargs None (kw_drop_p kw) (kw_forward_expansion kw)
                     (kw_forward_drop_p kw) (kw_num_heads kw) (kw_dropout kw) in
  pe <- PatchEmbedding.init "0." theta in_channels patch_size emb_size img_size ;;
  Ok (mk pe
         (TransformerEncoder.init "1." theta GELU depth kw)
         (ClassificationHead.init "2." theta emb_size out_channels)).

Definition forward (self : t) : Tensor -> result Tensor :=
  Sequential [PatchEmbedding.forward (embedding self);
              TransformerEncoder.forward (encoder self);
              ClassificationHead.forward (head self)].

End ViT.

(* ================================================================== *)
(** * The numeric helpers of the training script *)

(** Loss values are kept as exact rationals. *)
Module np.

Local Open Scope Q_scope.

Definition sum (l : list Q) : Q := fold_left Qplus l 0.

(** [np.mean(l)]; the script only takes the mean of a list it has just
    appended to. *)
Definition mean (l : list Q) : Q := sum l / inject_Z (Z.of_nat (List.length l)).

(** Rounding to the nearest integer, halves to the even neighbour. *)
Definition rint (q : Q) : Z :=
  let f := Qfloor q in
  match Qcompare (q - inject_Z f) (1 # 2) with
  | Lt => f
  | Gt => (f + 1)%Z
  | Eq => if Z.even f then f else (f + 1)%Z
  end.

(** [np.round(x, decimals)] *)
Definition round (x : Q) (decimals : Z) : Q :=
  let scale := Qpower 10 decimals in
  inject_Z (rint (x * scale)) / scale.

End np.

(** [l[-k:]]: the last [k] elements, all of [l] when it is shorter; [-0] is
    [0], so [l[-0:]] is all of [l]. *)
Definition slice_last {A : Type} (k : nat) (l : list A) : list A :=
  match k with
  | O => l
  | S _ => skipn (List.length l - k) l
  end.

(** [s.zfill(width)] for a string without sign. *)
Definition zfill (width : nat) (s : string) : string :=
  (String.concat "" (repeat "0" (width - String.length s)) ++ s)%string.

(* ================================================================== *)
(** * The framework's learning-rate scheduler *)

(** [torch.optim.lr_scheduler.ReduceLROnPlateau] in its default mode
    ([mode="min"], [threshold_mode="rel"], [cooldown=0], [min_lr=0],
    [eps=1e-8]) over an optimizer with one parameter group, as the
    framework documents it; [lr] is the learning rate of the optimizer it
    holds. *)
Module ReduceLROnPlateau.

Local Open Scope Q_scope.

Record t : Type := mk {
  factor : Q;
  patience : nat;
  threshold : Q;
  cooldown : nat;
  min_lr : Q;
  eps : Q;
  best : option Q;            (* None: +inf, nothing seen yet *)
  num_bad_epochs : nat;
  cooldown_counter : nat;
  last_epoch : nat;
  lr : Q
}.

Definition init (lr factor : Q) (patience : nat) (threshold : Q) : t :=
  mk factor patience threshold 0 0 (1 # 100000000) None 0 0 0 lr.

(** [a < best * (1 - threshold)] *)
Definition is_better (self : t) (a : Q) : bool :=
  match best self with
  | None => true
  | Some b => negb (Qle_bool (b * (1 - threshold self)) a)
  end.

Definition Qmax (a b : Q) : Q := if Qle_bool a b then b else a.

Definition reduce_lr (self : t) : Q :=
  let old_lr := lr self in
  let new_lr := Qmax (old_lr * factor self) (min_lr self) in
  if Qle_bool (old_lr - new_lr) (eps self) then old_lr else new_lr.

Definition step (self : t) (metrics : Q) : t :=
  let epoch := S (last_epoch self) in
  let better := is_better self metrics in
  let best' := if better then Some metrics else best self in
  let bad := if better then O else S (num_bad_epochs self) in
  let in_cooldown := (0 <? cooldown_counter self)%nat in
  let counter := if in_cooldown then pred (cooldown_counter self) else cooldown_counter self in
  let bad := if in_cooldown then O else bad in
  if (patience self <? bad)%nat then
    mk (factor self) (patience self) (threshold self) (cooldown self) (min_lr self)
       (eps self) best' O (cooldown self) epoch (reduce_lr self)
  else
    mk (factor self) (patience self) (threshold self) (cooldown self) (min_lr self)
       (eps self) best' bad counter epoch (lr self).

End ReduceLROnPlateau.

(* ================================================================== *)
(** * src/main.py *)

Module Main.

Local Open Scope Q_scope.

(** What a run does, in order. *)
Inductive event : Type :=
| ShowData
| LoadData
| Instantiate                      (* model, criterion, optimizer, scheduler *)
| Summary
| EpochTrain (epoch : nat)         (* epoch_train(...) *)
| EpochEval (epoch : nat)          (* epoch_eval(...) *)
| Report (epoch epochs : nat) (train_loss val_loss : Q)
| SchedulerStep (metrics : Q)      (* scheduler.step(...) *)
| Save (path : string)             (* torch.save(model.state_dict(), path) *)
| StopEarly                        (* print("Stopping early") *)
| PlotLoss.

(** [utils.epoch_train] and [utils.epoch_eval] are outside [src/]: each call
    runs one pass over its data loader and appends the loss of the pass to
    [loss["train"]] or [loss["val"]].  The numbers they append are taken as
    given: [train_pass e] and [eval_pass e] for the passes of epoch [e]. *)
Record passes : Type := mkPasses {
  train_pass : nat -> Q;
  eval_pass : nat -> Q
}.

Record config_t : Type := mkConfig {
  data_dir : string;
  cfg_epochs : nat;
  batch_size : nat;
  batches_per_epoch : nat;
  batches_per_epoch_val : nat;
  learning_rate : Q
}.

Definition config : config_t :=
  mkConfig "data/FreiHAND_pub_v2" 1000 64 50 20 (1 # 100).

Section Train.

(** The scheduler is any object with a [step] method. *)
Variable scheduler_t : Type.
Variable scheduler_step : scheduler_t -> Q -> scheduler_t.

Variable world : passes.

(** The arguments of [train] that its control flow reads. *)
Variable epochs : nat.
Variable checkpoint_frequency : nat.
Variable early_stopping_avg : nat.
Variable early_stopping_precision : Z.
Variable early_stopping_epochs : nat.

(** The local variables of [train]; [None] is a name not bound yet. *)
Record locals : Type := mkLocals {
  loss_train : list Q;
  loss_val : list Q;
  scheduler : option scheduler_t;
  min_val_loss : option Q;
  no_decrease_epochs : option nat;
  log : list event
}.

Inductive control : Type :=
| Continue
| Break
| Throw (e : exn).

Definition emit (ev : event) (st : locals) : locals :=
  mkLocals (loss_train st) (loss_val st) (scheduler st) (min_val_loss st)
           (no_decrease_epochs st) (log st ++ [ev]).

Definition passes_of_epoch (epoch : nat) (st : locals) : locals :=
  let st := emit (EpochTrain epoch) st in
  let st := mkLocals (loss_train st ++ [train_pass world epoch]) (loss_val st)
                     (scheduler st) (min_val_loss st) (no_decrease_epochs st) (log st) in
  let st := emit (EpochEval epoch) st in
  let st := mkLocals (loss_train st) (loss_val st ++ [eval_pass world epoch])
                     (scheduler st) (min_val_loss st) (no_decrease_epochs st) (log st) in
  emit (Report (epoch + 1) epochs
               (np.round (last (loss_train st) 0) 10)
               (np.round (last (loss_val st) 0) 10)) st.

(** reducing LR if no improvement *)
Definition schedule (st : locals) : locals :=
  match scheduler st with
  | None => st
  | Some s =>
      let m := last (loss_train st) 0 in
      emit (SchedulerStep m)
           (mkLocals (loss_train st) (loss_val st) (Some (scheduler_step s m))
                     (min_val_loss st) (no_decrease_epochs st) (log st))
  end.

Definition checkpoint_path (epoch : nat) : string :=
  ("weights/ViT_model_" ++ zfill 3 (str (epoch + 1)))%string.

(** save model *)
Definition checkpoint (epoch : nat) (st : locals) : locals * control :=
  match checkpoint_frequency with
  | O => (st, Throw ZeroDivisionError)
  | S _ =>
      if ((epoch + 1) mod checkpoint_frequency =? 0)%nat
      then (emit (Save (checkpoint_path epoch)) st, Continue)
      else (st, Continue)
  end.

Definition set_stopping (m : Q) (n : nat) (st : locals) : locals :=
  mkLocals (loss_train st) (loss_val st) (scheduler st) (Some m) (Some n) (log st).

(** stop early *)
Definition early_stopping (epoch : nat) (st : locals) : locals * control :=
  let updated :=
    if (epoch <? early_stopping_avg)%nat then
      Ok (set_stopping (np.round (np.mean (loss_val st)) early_stopping_precision) 0 st)
    else
      let val_loss :=
        np.round (np.mean (slice_last early_stopping_avg (loss_val st)))
                 early_stopping_precision in
      match min_val_loss st with
      | None => Raise (UnboundLocalError "min_val_loss")
      | Some m =>
          if Qle_bool m val_loss then
            match no_decrease_epochs st with
            | None => Raise (UnboundLocalError "no_decrease_epochs")
            | Some n => Ok (set_stopping m (n + 1) st)
            end
          else Ok (set_stopping val_loss 0 st)
      end in
  match updated with
  | Raise e => (st, Throw e)
  | Ok st =>
      match no_decrease_epochs st with
      | None => (st, Throw (UnboundLocalError "no_decrease_epochs"))
      | Some n =>
          if (early_stopping_epochs <? n)%nat
          then (emit StopEarly st, Break)
          else (st, Continue)
      end
  end.

(** The body of the [for] loop. *)
Definition body (epoch : nat) (st : locals) : locals * control :=
  let st := passes_of_epoch epoch st in
  let st := schedule st in
  match checkpoint epoch st with
  | (st, Continue) => early_stopping epoch st
  | stopped => stopped
  end.

(** [for epoch in range(epochs)], as the list of the epochs still to run. *)
Fixpoint loop (todo : list nat) (st : locals) : locals * option exn :=
  match todo with
  | [] => (st, None)
  | epoch :: rest =>
      match body epoch st with
      | (st, Continue) => loop rest st
      | (st, Break) => (st, None)
      | (st, Throw e) => (st, Some e)
      end
  end.

Definition start (sched : option scheduler_t) : locals :=
  mkLocals [] [] sched None None [].

(** [train]: what it did and what it returns (the two loss lists; the model
    it returns is the one it was given). *)
Definition train (sched : option scheduler_t) : locals * result (list Q * list Q) :=
  match loop (seq 0 epochs) (start sched) with
  | (st, Some e) => (st, Raise e)
  | (st, None) =>
      let st := emit (Save "weights/ViT_model_final.pth") st in
      (st, Ok (loss_train st, loss_val st))
  end.

(** The number of epochs whose passes were run. *)
Definition epochs_run (st : locals) : nat := List.length (loss_val st).

End Train.

(** ** The command line *)

Record Namespace : Type := mkNamespace {
  args_train : bool;
  args_test : bool;
  args_inference : bool;
  args_weights : string;
  args_epochs : Z;
  args_viz : bool;
  args_show_data : bool
}.

(** The options of the parser, as they stand on a command line. *)
Inductive cli_option : Type :=
| opt_train
| opt_test
| opt_inference
| opt_weights (path : string)
| opt_epochs (n : Z)
| opt_visualize
| opt_show_data.

Definition defaults : Namespace := mkNamespace false false false "" 10 false false.

Definition store (ns : Namespace) (o : cli_option) : Namespace :=
  match o with
  | opt_train =>
      mkNamespace true (args_test ns) (args_inference ns) (args_weights ns)
                  (args_epochs ns) (args_viz ns) (args_show_data ns)
  | opt_test =>
      mkNamespace (args_train ns) true (args_inference ns) (args_weights ns)
                  (args_epochs ns) (args_viz ns) (args_show_data ns)
  | opt_inference =>
      mkNamespace (args_train ns) (args_test ns) true (args_weights ns)
                  (args_epochs ns) (args_viz ns) (args_show_data ns)
  | opt_weights p =>
      mkNamespace (args_train ns) (args_test ns) (args_inference ns) p
                  (args_epochs ns) (args_viz ns) (args_show_data ns)
  | opt_epochs n =>
      mkNamespace (args_train ns) (args_test ns) (args_inference ns) (args_weights ns)
                  n (args_viz ns) (args_show_data ns)
  | opt_visualize =>
      mkNamespace (args_train ns) (args_test ns) (args_inference ns) (args_weights ns)
                  (args_epochs ns) true (args_show_data ns)
  | opt_show_data =>
      mkNamespace (args_train ns) (args_test ns) (args_inference ns) (args_weights ns)
                  (args_epochs ns) (args_viz ns) true
  end.

Definition parse_args (argv : list cli_option) : Namespace :=
  fold_left store argv defaults.

(** ** main *)

(** The scheduler [main] builds over [optim.SGD(lr=config["learning_rate"])]. *)
Definition main_scheduler : ReduceLROnPlateau.t :=
  ReduceLROnPlateau.init (learning_rate config) (1 # 2) 20 (1 # 100000).

(** The call of [train] in [main]. *)
Definition main_train (world : passes)
  : locals ReduceLROnPlateau.t * result (list Q * list Q) :=
  train ReduceLROnPlateau.step world (cfg_epochs config) 100 10 5 10
        (Some main_scheduler).

(** [main(args)]: what the run does and whether it ends in an exception. *)
Definition main (world : passes) (args : Namespace) : list event * result unit :=
  let shown := if args_show_data args then [ShowData] else [] in
  if args_train args then
    let '(st, r) := main_train world in
    let done := shown ++ [LoadData; Instantiate; Summary] ++ log st in
    match r with
    | Raise e => (done, Raise e)
    | Ok _ => (done ++ [PlotLoss], Ok tt)
    end
  else (shown, Ok tt).

End Main.

(* ================================================================== *)
(** * Specifications *)

Unset Implicit Arguments.

(** ** Tensors up to their values *)

(** Two tensors that agree wherever their common shape reaches. *)
Definition teq (x y : Tensor) : Prop :=
  shape x = shape y /\ forall idx, valid (shape x) idx -> elem x idx = elem y idx.

(** Two tensors with the same shape and the same value at every index. *)
Definition tsame (x y : Tensor) : Prop :=
  shape x = shape y /\ forall idx, elem x idx = elem y idx.

(** Two results that raise the same exception or hold the same tensor. *)
Definition rsame (a b : result Tensor) : Prop :=
  match a, b with
  | Ok x, Ok y => tsame x y
  | Raise e, Raise e' => e = e'
  | _, _ => False
  end.

(** ** The loss, in the words of its description *)

Module IoUSpec.

Local Open Scope R_scope.

(** The sum over the last two axes, taken at once. *)
Definition sum_last_two (x : Tensor) : result Tensor :=
  match rev (shape x) with
  | w :: h :: lead =>
      Ok (mkTensor (rev lead)
            (fun idx => Rsum h (fun i => Rsum w (fun j => elem x (idx ++ [i; j])))))
  | _ => Raise (IndexError "Dimension out of range")
  end.

(** On two tensors of one shape, [lead ++ [h; w]]: the intersection, the
    sum of squares and the union of the heatmaps at the leading index
    [idx]. *)
Definition intersection (y_pred y_true : Tensor) (h w : nat) (idx : list nat) : R :=
  Rsum h (fun i => Rsum w (fun j =>
    elem y_true (idx ++ [i; j]) * elem y_pred (idx ++ [i; j]))).

Definition square_sum (y : Tensor) (h w : nat) (idx : list nat) : R :=
  Rsum h (fun i => Rsum w (fun j => elem y (idx ++ [i; j]) ^ 2)).

Definition union (y_pred y_true : Tensor) (h w : nat) (idx : list nat) : R :=
  square_sum y_true h w idx + square_sum y_pred h w idx
  - intersection y_pred y_true h w idx.

(** 1 minus the mean, over the leading indices, of
    (intersection + 1e-6) / (union + 1e-6); [nan] when there is no leading
    index to take the mean over. *)
Definition value (y_pred y_true : Tensor) (lead : list nat) (h w : nat) : scalar :=
  match numel lead with
  | O => NaN
  | S _ =>
      Real (1 - sum_over lead (fun idx =>
                  (intersection y_pred y_true h w idx + 1 / 1000000)
                  / (union y_pred y_true h w idx + 1 / 1000000))
                / INR (numel lead))
  end.

(** The same formula on tensors, for operands of any two broadcastable
    shapes: 1 - mean((intersection + EPSILON) / (union + EPSILON)) with
    EPSILON = 1e-6. *)
Definition loss (y_pred y_true : Tensor) : result scalar :=
  overlap <- tmul y_true y_pred ;;
  intersection <- sum_last_two overlap ;;
  sum_true <- sum_last_two (tpow y_true 2) ;;
  sum_pred <- sum_last_two (tpow y_pred 2) ;;
  total <- tadd sum_true sum_pred ;;
  union <- tsub total intersection ;;
  ratio <- tdiv (tadd_scalar intersection (1 / 1000000))
                (tadd_scalar union (1 / 1000000)) ;;
  Ok (rsub 1 (mean ratio)).

End IoUSpec.

(** ** Patches *)

Module PatchSpec.

Local Open Scope R_scope.

(** The pixel row (or column) at offset [u] inside the patch in row (or
    column) [i] of the patch grid. *)
Definition pixel (p i u : nat) : nat := i * p + u.

(** The linear projection, to the embedding coordinate [e], of the patch in
    row [i] and column [j] of the patch grid of image [n]. *)
Definition projected_patch (pe : PatchEmbedding.t) (x : Tensor) (n i j e : nat) : R :=
  let p := PatchEmbedding.patch_size pe in
  let conv := PatchEmbedding.projection pe in
  Rsum (Conv2d.in_channels conv) (fun c =>
    Rsum p (fun u =>
      Rsum p (fun v =>
        Conv2d.weight conv [e; c; u; v]
        * elem x [n; c; pixel p i u; pixel p j v])))
  + Conv2d.bias conv [e].

End PatchSpec.

(** ** Attention as the paper defines it *)

Module AttentionSpec.

Local Open Scope R_scope.

(** The softmax along the last axis (the keys). *)
Definition softmax_last (x : Tensor) : Tensor :=
  mkTensor (shape x)
    (fun idx =>
       exp (elem x idx)
       / Rsum (last (shape x) O) (fun j => exp (elem x (removelast idx ++ [j])))).

(** softmax(Q K^T / sqrt(d_k)), with the queries and keys of the module;
    [d_k] is the width of one head. *)
Definition weights (self : MultiHeadAttention.t) (x : Tensor) : result Tensor :=
  let h := MultiHeadAttention.num_heads self in
  k <- Linear.forward (MultiHeadAttention.keys self) x ;;
  keys <- einops.rearrange_b_n_hd__b_h_n_d k h ;;
  q <- Linear.forward (MultiHeadAttention.queries self) x ;;
  queries <- einops.rearrange_b_n_hd__b_h_n_d q h ;;
  energy <- torch.einsum_bhqd_bhkd__bhqk queries keys ;;
  let d_k := (MultiHeadAttention.emb_size self / h)%nat in
  Ok (softmax_last (tdiv_scalar energy (sqrt (INR d_k)))).

End AttentionSpec.

(** ** Heatmaps *)

(** A batch of 2D heatmaps, one map per keypoint: shape (b, k, h, w). *)
Definition heatmaps (b k : nat) (t : Tensor) : Prop :=
  exists h w, shape t = [b; k; h; w].

(** ** The early-stopping rule and the log of a run, stated on their own *)

Module TrainSpec.

Import Main.

Section Rule.

Variable scheduler_t : Type.
Variable scheduler_step : scheduler_t -> Q -> scheduler_t.
Variable world : passes.
Variable epochs : nat.
Variable checkpoint_frequency : nat.
Variable early_stopping_avg : nat.
Variable early_stopping_precision : Z.
Variable early_stopping_epochs : nat.

(** The validation losses known at the end of epoch [e] (0-based). *)
Definition val_history (e : nat) : list Q := map (eval_pass world) (seq 0 (S e)).

(** The rounded mean of the last [early_stopping_avg] validation losses at
    the end of epoch [e]. *)
Definition recent_mean (e : nat) : Q :=
  np.round (np.mean (slice_last early_stopping_avg (val_history e)))
           early_stopping_precision.

Definition lower (m v : Q) : Q := if Qle_bool m v then m else v.

(** The running minimum an epoch [e >= early_stopping_avg] is compared
    with: the least rounded mean from the last of the first
    [early_stopping_avg] epochs up to epoch [e - 1]. *)
Definition running_min (e : nat) : Q :=
  fold_left lower
    (map recent_mean (seq early_stopping_avg (e - early_stopping_avg)))
    (recent_mean (early_stopping_avg - 1)).

(** The value of [min_val_loss] at the end of epoch [e]: the rounded mean of
    all losses so far during the first [early_stopping_avg] epochs, the
    running minimum afterwards. *)
Definition threshold (e : nat) : Q :=
  if (e <? early_stopping_avg)%nat then recent_mean e else running_min (S e).

(** Epoch [e] failed to drop below the running minimum; none of the first
    [early_stopping_avg] epochs counts. *)
Definition failed (e : nat) : bool :=
  (early_stopping_avg <=? e)%nat && Qle_bool (running_min e) (recent_mean e).

(** The number of consecutive failed epochs that end with epoch [e]. *)
Fixpoint stall (e : nat) : nat :=
  match e with
  | O => if failed O then 1 else 0
  | S e' => if failed (S e') then S (stall e') else 0
  end.

(** More than [early_stopping_epochs] consecutive failures end at [e]. *)
Definition exhausted (e : nat) : bool := (early_stopping_epochs <? stall e)%nat.

(** The number of epochs a run goes through: up to the first exhausted
    epoch, or all of them. *)
Definition epochs_done : nat :=
  match find exhausted (seq 0 epochs) with
  | Some e => S e
  | None => epochs
  end.

(** What epoch [e] writes to the log. *)
Definition epoch_log (stepping : bool) (e : nat) : list event :=
  [EpochTrain e; EpochEval e;
   Report (e + 1) epochs (np.round (train_pass world e) 10)
          (np.round (eval_pass world e) 10)]
  ++ (if stepping then [SchedulerStep (train_pass world e)] else [])
  ++ (if ((e + 1) mod checkpoint_frequency =? 0)%nat
      then [Save (checkpoint_path e)] else [])
  ++ (if exhausted e then [StopEarly] else []).

Definition is_some {A : Type} (o : option A) : bool :=
  match o with Some _ => true | None => false end.

(** The local variables of [train] after [k] epochs. *)
Definition state_after (sched : option scheduler_t) (k : nat) : locals scheduler_t :=
  mkLocals
    (map (train_pass world) (seq 0 k))
    (map (eval_pass world) (seq 0 k))
    (option_map (fun s => fold_left scheduler_step (map (train_pass world) (seq 0 k)) s)
                sched)
    (match k with O => None | S e => Some (threshold e) end)
    (match k with O => None | S e => Some (stall e) end)
    (List.concat (map (epoch_log (is_some sched)) (seq 0 k))).

End Rule.

Definition is_save (ev : event) : bool :=
  match ev with Save _ => true | _ => false end.

Definition is_step (ev : event) : bool :=
  match ev with SchedulerStep _ => true | _ => false end.

End TrainSpec.

Module SchedulerSpec.

(** A scheduler with the settings [main] gives it, outside a cooldown. *)
Definition configured (s : ReduceLROnPlateau.t) : Prop :=
  ReduceLROnPlateau.factor s = (1 # 2)%Q
  /\ ReduceLROnPlateau.patience s = 20%nat
  /\ ReduceLROnPlateau.threshold s = (1 # 100000)%Q
  /\ ReduceLROnPlateau.cooldown s = O
  /\ ReduceLROnPlateau.min_lr s = 0%Q
  /\ ReduceLROnPlateau.eps s = (1 # 100000000)%Q
  /\ ReduceLROnPlateau.cooldown_counter s = O.

End SchedulerSpec.

(** Two parsed command lines that differ at most in [--epochs]. *)
Definition same_but_epochs (a b : Main.Namespace) : Prop :=
  Main.args_train a = Main.args_train b
  /\ Main.args_test a = Main.args_test b
  /\ Main.args_inference a = Main.args_inference b
  /\ Main.args_weights a = Main.args_weights b
  /\ Main.args_viz a = Main.args_viz b
  /\ Main.args_show_data a = Main.args_show_data b.

(** ** Concrete inputs *)

Module Examples.

Local Open Scope R_scope.

(** A batch without samples: shape (0, 2, 2). *)
Definition empty_batch : Tensor := mkTensor [0; 2; 2]%nat (fun _ => 1).

(** Two 2x2 heatmaps in a batch of one. *)
Definition heatmap_a : Tensor :=
  mkTensor [1; 2; 2]%nat (fun idx => INR (list_sum idx)).
Definition heatmap_b : Tensor :=
  mkTensor [1; 2; 2]%nat (fun idx => 1).

(** Parameters that are all one half, and the identity as activation. *)
Definition halves : state_dict := fun _ _ => 1 / 2.

(** A batch of one 224x224 RGB image, and one of two 4x4 grey images. *)
Definition image : Tensor :=
  mkTensor [1; 3; 224; 224]%nat (fun idx => INR (list_sum idx)).
Definition small_images : Tensor :=
  mkTensor [2; 1; 4; 4]%nat (fun idx => INR (list_sum idx)).

(** Three tokens of width four. *)
Definition tokens : Tensor :=
  mkTensor [1; 3; 4]%nat (fun idx => INR (list_sum idx)).
Definition mask : Tensor := mkTensor [3; 3]%nat (fun _ => 1).

(** Passes whose losses never change. *)
Definition flat : Main.passes := Main.mkPasses (fun _ => 1%Q) (fun _ => 1%Q).

(** A scheduler that does nothing. *)
Definition no_step (s : unit) (_ : Q) : unit := s.

(** Heatmap labels for one image: 21 keypoints, 224x224 each. *)
Definition labels : Tensor :=
  mkTensor [1; 21; 224; 224]%nat (fun _ => 0).


(** An encoder four wide with two heads. *)
Definition narrow : kwargs :=
  mkKwargs (Some 4%nat) None None None (Some 2%nat) None.

(** Two grey images that are wider than they are high. *)
Definition wide_images : Tensor :=
  mkTensor [2; 1; 4; 6]%nat (fun idx => INR (list_sum idx)).

End Examples.

(** ** Further vocabulary *)

(** Reading the epoch back from the name of a periodic checkpoint:
    [int(path[len("weights/ViT_model_"):]) - 1]. *)
Fixpoint strip_prefix (p s : string) : option string :=
  match p, s with
  | EmptyString, _ => Some s
  | String a p', String b s' => if Ascii.eqb a b then strip_prefix p' s' else None
  | String _ _, EmptyString => None
  end.

Definition epoch_of_path (path : string) : option nat :=
  match strip_prefix "weights/ViT_model_" path with
  | Some digits =>
      match NilEmpty.uint_of_string digits with
      | Some d => match Nat.of_uint d with O => None | S e => Some e end
      | None => None
      end
  | None => None
  end.

(** The options [main] reads. *)
Definition read_by_main (o : Main.cli_option) : bool :=
  match o with
  | Main.opt_train | Main.opt_show_data => true
  | _ => false
  end.

(** The ratio the loss averages, at one leading index. *)
Definition iou_at (y_pred y_true : Tensor) (h w : nat) (idx : list nat) : R :=
  (IoUSpec.intersection y_pred y_true h w idx + 1 / 1000000)
  / (IoUSpec.union y_pred y_true h w idx + 1 / 1000000).

(* ================================================================== *)
(** * Facts about tensors *)

Section TensorFacts.

Local Open Scope R_scope.

Lemma Rsum_ext (n : nat) (f g : nat -> R) :
  (forall i, (i < n)%nat -> f i = g i) -> Rsum n f = Rsum n g.
Proof.
  induction n as [|n IH]; intros H; simpl; [reflexivity|].
  rewrite IH by (intros; apply H; lia).
  rewrite H by lia. reflexivity.
Qed.

Lemma Rsum_const (n : nat) (c : R) : Rsum n (fun _ => c) = INR n * c.
Proof.
  induction n as [|n IH]; [simpl; ring|].
  change (Rsum (S n) (fun _ => c)) with (Rsum n (fun _ => c) + c).
  rewrite IH, S_INR. ring.
Qed.

Lemma Rsum_nonneg (n : nat) (f : nat -> R) :
  (forall i, (i < n)%nat -> 0 <= f i) -> 0 <= Rsum n f.
Proof.
  induction n as [|n IH]; intros H; simpl; [lra|].
  assert (0 <= Rsum n f) by (apply IH; intros; apply H; lia).
  assert (0 <= f n) by (apply H; lia). lra.
Qed.

Lemma Rsum_pos (n : nat) (f : nat -> R) :
  n <> O -> (forall i, 0 < f i) -> 0 < Rsum n f.
Proof.
  intros Hn Hf. destruct n as [|n]; [contradiction|]. clear Hn.
  induction n as [|n IH].
  - cbn. specialize (Hf O). lra.
  - change (Rsum (S (S n)) f) with (Rsum (S n) f + f (S n)).
    specialize (Hf (S n)). lra.
Qed.

Lemma Rsum_scale (n : nat) (f : nat -> R) (a c : R) :
  Rsum n (fun i => f i / a / c) = Rsum n f / a / c.
Proof.
  induction n as [|n IH]; cbn [Rsum]; [unfold Rdiv; ring|].
  rewrite IH. unfold Rdiv. ring.
Qed.

Lemma sum_over_ext (s : list nat) (f g : list nat -> R) :
  (forall idx, valid s idx -> f idx = g idx) -> sum_over s f = sum_over s g.
Proof.
  revert f g. induction s as [|n s IH]; intros f g H; simpl.
  - apply H. constructor.
  - apply Rsum_ext. intros i Hi. apply IH. intros idx Hv.
    apply H. constructor; assumption.
Qed.

Lemma sum_over_const (s : list nat) (c : R) :
  sum_over s (fun _ => c) = INR (numel s) * c.
Proof.
  induction s as [|n s IH]; simpl sum_over.
  - simpl. ring.
  - rewrite (Rsum_ext n _ (fun _ => INR (numel s) * c)) by (intros; apply IH).
    rewrite Rsum_const. simpl numel. rewrite mult_INR. ring.
Qed.

Lemma broadcast_rev_refl (s : list nat) : broadcast_rev s s = Some s.
Proof.
  induction s as [|n s IH]; [reflexivity|].
  simpl. rewrite IH, Nat.eqb_refl. reflexivity.
Qed.

Lemma broadcast_shapes_refl (s : list nat) : broadcast_shapes s s = Some s.
Proof.
  unfold broadcast_shapes. rewrite broadcast_rev_refl. simpl.
  rewrite rev_involutive. reflexivity.
Qed.

Lemma broadcast_rev_length (a b s : list nat) :
  broadcast_rev a b = Some s -> List.length s = Nat.max (List.length a) (List.length b).
Proof.
  revert b s. induction a as [|x a IH]; intros b s.
  - simpl. intros [= <-]. reflexivity.
  - destruct b as [|y b]; [simpl; intros [= <-]; reflexivity|].
    simpl. destruct (broadcast_rev a b) as [s'|] eqn:E; [|discriminate].
    specialize (IH _ _ E).
    destruct (x =? y)%nat; [intros [= <-]; simpl; congruence|].
    destruct (x =? 1)%nat; [intros [= <-]; simpl; congruence|].
    destruct (y =? 1)%nat; [intros [= <-]; simpl; congruence|discriminate].
Qed.

Lemma valid_length (s idx : list nat) : valid s idx -> List.length idx = List.length s.
Proof. intros H. induction H; simpl; congruence. Qed.

(** Inside the shape, broadcasting a tensor to its own shape reads the same
    index. *)
Lemma bidx_valid (s idx : list nat) : valid s idx -> bidx s idx = idx.
Proof.
  intros H. unfold bidx. rewrite (valid_length s idx H), Nat.sub_diag. simpl.
  induction H as [|i d idx s Hid _ IH]; [reflexivity|].
  simpl. rewrite IH. destruct (Nat.eqb_spec d 1) as [->|_]; [|reflexivity].
  f_equal. lia.
Qed.

Lemma valid_snoc (s idx : list nat) (i : nat) :
  s <> [] -> valid (removelast s) idx -> (i < last s O)%nat -> valid s (idx ++ [i]).
Proof.
  intros Hs. rewrite (app_removelast_last O Hs) at 3.
  intros Hv Hi. apply Forall2_app; [exact Hv|]. constructor; [exact Hi|constructor].
Qed.

Lemma shape_sum_last (x : Tensor) : shape (sum_last x) = removelast (shape x).
Proof. destruct x as [[|n s] f]; reflexivity. Qed.

Lemma sum_last_snoc (l : list nat) (n : nat) (f : list nat -> R) :
  sum_last (mkTensor (l ++ [n]) f)
  = mkTensor l (fun idx => Rsum n (fun i => f (idx ++ [i]))).
Proof.
  unfold sum_last. cbn [shape elem].
  rewrite removelast_last, last_last.
  destruct (l ++ [n]) eqn:E; [destruct l; discriminate|reflexivity].
Qed.

Lemma sum_last_teq (x y : Tensor) : teq x y -> teq (sum_last x) (sum_last y).
Proof.
  destruct x as [sx fx], y as [sy fy]. unfold teq, sum_last. cbn [shape elem].
  intros [<- He]. destruct sx as [|n s]; [split; [reflexivity|exact He]|].
  split; [reflexivity|]. cbn [shape elem]. intros idx Hv.
  apply Rsum_ext. intros i Hi. apply He, valid_snoc; [discriminate|assumption..].
Qed.

Lemma sum_last_nonneg (x : Tensor) :
  (forall idx, valid (shape x) idx -> 0 <= elem x idx) ->
  forall idx, valid (shape (sum_last x)) idx -> 0 <= elem (sum_last x) idx.
Proof.
  destruct x as [sx fx]. unfold sum_last. cbn [shape elem].
  intros H. destruct sx as [|n s]; [exact H|].
  cbn [shape elem]. intros idx Hv. apply Rsum_nonneg. intros i Hi.
  apply H, valid_snoc; [discriminate|assumption..].
Qed.

(** An elementwise operation on two tensors of one shape. *)
Lemma ewise_same_shape (op : R -> R -> R) (a b : Tensor) :
  shape a = shape b ->
  exists r, ewise op a b = Ok r /\ shape r = shape a /\
            forall idx, valid (shape a) idx -> elem r idx = op (elem a idx) (elem b idx).
Proof.
  intros H. unfold ewise. rewrite <- H, broadcast_shapes_refl.
  eexists. split; [reflexivity|]. split; [reflexivity|].
  cbn [elem]. intros idx Hv. rewrite (bidx_valid _ _ Hv). reflexivity.
Qed.

Lemma ewise_rank (op : R -> R -> R) (a b r : Tensor) :
  ewise op a b = Ok r -> rank r = Nat.max (rank a) (rank b).
Proof.
  unfold ewise, broadcast_shapes, rank.
  destruct (broadcast_rev (rev (shape a)) (rev (shape b))) as [s|] eqn:E;
    [|discriminate].
  cbn. intros [= <-]. cbn. rewrite length_rev, (broadcast_rev_length _ _ _ E), !length_rev.
  reflexivity.
Qed.

Lemma ewise_tsame (op : R -> R -> R) (a a' b b' : Tensor) :
  tsame a a' -> tsame b b' -> rsame (ewise op a b) (ewise op a' b').
Proof.
  intros [Hsa Ha] [Hsb Hb]. unfold ewise. rewrite <- Hsa, <- Hsb.
  destruct (broadcast_shapes (shape a) (shape b)); cbn; [|reflexivity].
  split; [reflexivity|]. cbn. intros idx. rewrite Ha, Hb. reflexivity.
Qed.

Lemma tmap_tsame (g : R -> R) (a a' : Tensor) : tsame a a' -> tsame (tmap g a) (tmap g a').
Proof.
  intros [Hs He]. split; cbn; [exact Hs|]. intros idx. rewrite He. reflexivity.
Qed.

Lemma mean_tsame (a a' : Tensor) : tsame a a' -> mean a = mean a'.
Proof.
  intros [Hs He]. unfold mean. rewrite <- Hs.
  destruct (numel (shape a)); [reflexivity|].
  f_equal. f_equal. apply sum_over_ext. intros idx _. apply He.
Qed.

End TensorFacts.

(* ================================================================== *)
(** * IoULoss *)

Section IoULossFacts.

Local Open Scope R_scope.

Lemma op_sum_teq (x y : Tensor) : teq x y -> teq (IoULoss.op_sum x) (IoULoss.op_sum y).
Proof. intros H. apply sum_last_teq, sum_last_teq, H. Qed.

Lemma shape_op_sum (x : Tensor) :
  shape (IoULoss.op_sum x) = removelast (removelast (shape x)).
Proof. unfold IoULoss.op_sum. rewrite !shape_sum_last. reflexivity. Qed.

Lemma op_sum_square_nonneg (y : Tensor) (idx : list nat) :
  valid (shape (IoULoss.op_sum (tpow y 2))) idx ->
  0 <= elem (IoULoss.op_sum (tpow y 2)) idx.
Proof.
  revert idx. unfold IoULoss.op_sum. apply sum_last_nonneg, sum_last_nonneg.
  intros idx _. cbn. nra.
Qed.

(** [x.sum(-1).sum(-1)] is the sum over the last two axes. *)
Lemma op_sum_is_sum_last_two (x : Tensor) :
  (2 <= rank x)%nat ->
  exists t, IoUSpec.sum_last_two x = Ok t /\ tsame (IoULoss.op_sum x) t.
Proof.
  destruct x as [s f]. unfold rank, IoUSpec.sum_last_two. cbn [shape elem].
  intros Hr.
  destruct (rev s) as [|w [|h lead]] eqn:E;
    try (apply (f_equal (@List.length nat)) in E; rewrite length_rev in E;
         simpl in E; lia).
  eexists. split; [reflexivity|]. clear Hr.
  apply (f_equal (@rev nat)) in E. rewrite rev_involutive in E. simpl in E.
  subst s. unfold IoULoss.op_sum. rewrite !sum_last_snoc.
  split; [reflexivity|]. intros idx. cbn [elem].
  apply Rsum_ext. intros i _. apply Rsum_ext. intros j _.
  rewrite <- app_assoc. reflexivity.
Qed.

Lemma valid_last_two (lead idx : list nat) (h w i j : nat) :
  valid lead idx -> (i < h)%nat -> (j < w)%nat ->
  valid (lead ++ [h; w]) (idx ++ [i; j]).
Proof.
  intros Hv Hi Hj. apply Forall2_app; [exact Hv|].
  constructor; [exact Hi|]. constructor; [exact Hj|constructor].
Qed.

(** The shape and the values of [op_sum x]. *)
Lemma op_sum_value (x : Tensor) (lead : list nat) (h w : nat) :
  shape x = lead ++ [h; w] ->
  shape (IoULoss.op_sum x) = lead
  /\ forall idx,
       elem (IoULoss.op_sum x) idx
       = Rsum h (fun i => Rsum w (fun j => elem x (idx ++ [i; j]))).
Proof.
  destruct x as [s f]. cbn [shape elem]. intros ->.
  unfold IoULoss.op_sum. change [h; w] with ([h] ++ [w]).
  rewrite app_assoc, !sum_last_snoc. split; [reflexivity|].
  intros idx. cbn [elem]. apply Rsum_ext. intros i _. apply Rsum_ext. intros j _.
  rewrite <- app_assoc. reflexivity.
Qed.

(** On two tensors of one shape the loss is the number the formula gives. *)
Lemma IoULoss_forward_value (y_pred y_true : Tensor) (lead : list nat) (h w : nat) :
  shape y_pred = lead ++ [h; w] ->
  shape y_true = lead ++ [h; w] ->
  IoULoss.forward y_pred y_true = Ok (IoUSpec.value y_pred y_true lead h w).
Proof.
  intros Hp Ht. unfold IoULoss.forward, tmul, tadd, tsub, tdiv.
  destruct (ewise_same_shape Rmult y_true y_pred) as (prod & -> & Hps & Hpe);
    [congruence|].
  cbn [bind]. rewrite Ht in Hps, Hpe.
  destruct (op_sum_value prod lead h w Hps) as (HIs & HIe).
  destruct (op_sum_value (tpow y_true 2) lead h w Ht) as (HAs & HAe).
  destruct (op_sum_value (tpow y_pred 2) lead h w Hp) as (HBs & HBe).
  set (I := IoULoss.op_sum prod) in *.
  set (A := IoULoss.op_sum (tpow y_true 2)) in *.
  set (B := IoULoss.op_sum (tpow y_pred 2)) in *.
  destruct (ewise_same_shape Rplus A B) as (T & -> & HTs & HTe); [congruence|].
  cbn [bind]. rewrite HAs in HTs, HTe.
  destruct (ewise_same_shape Rminus T I) as (U & -> & HUs & HUe); [congruence|].
  cbn [bind]. rewrite HTs in HUs, HUe.
  destruct (ewise_same_shape Rdiv (tadd_scalar I IoULoss.EPSILON)
              (tadd_scalar U IoULoss.EPSILON)) as (iou & -> & His & Hie).
  { cbn. congruence. }
  cbn [bind]. cbn [tadd_scalar tmap shape] in His, Hie. rewrite HIs in His, Hie.
  f_equal. unfold mean, IoUSpec.value. rewrite His.
  destruct (numel lead) as [|n] eqn:En; [reflexivity|]. cbn [rsub].
  do 3 f_equal. apply sum_over_ext. intros idx Hv.
  rewrite (Hie idx Hv). cbn [tadd_scalar tmap elem].
  rewrite (HUe idx Hv), (HTe idx Hv), HAe, HBe, HIe.
  assert (Hinter : Rsum h (fun i => Rsum w (fun j => elem prod (idx ++ [i; j])))
                   = IoUSpec.intersection y_pred y_true h w idx).
  { unfold IoUSpec.intersection. apply Rsum_ext. intros i Hi.
    apply Rsum_ext. intros j Hj. apply Hpe, valid_last_two; assumption. }
  rewrite Hinter. unfold IoUSpec.union, IoUSpec.square_sum, IoULoss.EPSILON.
  reflexivity.
Qed.

(** The code and the formula as tensor programs. *)
Lemma IoULoss_forward_refines (y_pred y_true : Tensor) :
  (2 <= rank y_pred)%nat -> (2 <= rank y_true)%nat ->
  IoULoss.forward y_pred y_true = IoUSpec.loss y_pred y_true.
Proof.
  intros Hp Ht. unfold IoULoss.forward, IoUSpec.loss.
  destruct (tmul y_true y_pred) as [prod|e] eqn:Eprod; [|reflexivity].
  cbn [bind].
  assert (Hr : (2 <= rank prod)%nat).
  { unfold tmul in Eprod. rewrite (ewise_rank _ _ _ _ Eprod). lia. }
  destruct (op_sum_is_sum_last_two prod Hr) as (inter & -> & Hinter).
  destruct (op_sum_is_sum_last_two (tpow y_true 2) Ht) as (st & -> & Hst).
  destruct (op_sum_is_sum_last_two (tpow y_pred 2) Hp) as (sp & -> & Hsp).
  cbn [bind].
  pose proof (ewise_tsame Rplus _ _ _ _ Hst Hsp) as Hsum. fold tadd in Hsum.
  destruct (tadd (IoULoss.op_sum (tpow y_true 2)) (IoULoss.op_sum (tpow y_pred 2)))
    as [s|e], (tadd st sp) as [s'|e']; cbn in Hsum; try contradiction;
    [|cbn [bind]; congruence].
  cbn [bind].
  pose proof (ewise_tsame Rminus _ _ _ _ Hsum Hinter) as Hun. fold tsub in Hun.
  destruct (tsub s (IoULoss.op_sum prod)) as [u|e], (tsub s' inter) as [u'|e'];
    cbn in Hun; try contradiction; [|cbn [bind]; congruence].
  cbn [bind].
  pose proof (ewise_tsame Rdiv _ _ _ _
                (tmap_tsame (fun v => v + IoULoss.EPSILON) _ _ Hinter)
                (tmap_tsame (fun v => v + IoULoss.EPSILON) _ _ Hun)) as Hiou.
  fold tdiv in Hiou. unfold tadd_scalar. fold IoULoss.EPSILON.
  destruct (tdiv (tmap (fun v => v + IoULoss.EPSILON) (IoULoss.op_sum prod))
                 (tmap (fun v => v + IoULoss.EPSILON) u)) as [r|e],
           (tdiv (tmap (fun v => v + IoULoss.EPSILON) inter)
                 (tmap (fun v => v + IoULoss.EPSILON) u')) as [r'|e'];
    cbn in Hiou; try contradiction; [|cbn [bind]; congruence].
  cbn [bind]. rewrite (mean_tsame _ _ Hiou). reflexivity.
Qed.

(** C3: [IoULoss.forward] returns 1 minus the mean of
    (intersection + EPSILON) / (union + EPSILON), where the intersection is
    the sum over the last two axes of [y_true * y_pred], the union is the sum
    of [y_true^2] plus the sum of [y_pred^2] minus the intersection, and
    EPSILON is 1e-6: as an equation between tensor programs for every two
    tensors that have a last two axes (both raise when the shapes do not
    broadcast), and as a number for every two tensors of one shape. *)
Theorem IoULoss_forward_is_the_formula (y_pred y_true : Tensor) :
  ((2 <= rank y_pred)%nat -> (2 <= rank y_true)%nat ->
   IoULoss.forward y_pred y_true = IoUSpec.loss y_pred y_true)
  /\ (forall lead h w,
        shape y_pred = lead ++ [h; w] ->
        shape y_true = lead ++ [h; w] ->
        IoULoss.forward y_pred y_true = Ok (IoUSpec.value y_pred y_true lead h w)).
Proof.
  split.
  - apply IoULoss_forward_refines.
  - apply IoULoss_forward_value.
Qed.

Lemma IoULoss_forward_is_the_formula_witness :
  IoULoss.forward Examples.heatmap_a Examples.heatmap_b
  = IoUSpec.loss Examples.heatmap_a Examples.heatmap_b
  /\ IoULoss.forward Examples.heatmap_a Examples.heatmap_b
     = Ok (IoUSpec.value Examples.heatmap_a Examples.heatmap_b [1%nat] 2 2).
Proof.
  split.
  - apply (proj1 (IoULoss_forward_is_the_formula Examples.heatmap_a Examples.heatmap_b));
      unfold rank; simpl; lia.
  - apply (proj2 (IoULoss_forward_is_the_formula Examples.heatmap_a Examples.heatmap_b)
                 [1%nat] 2%nat 2%nat); reflexivity.
Defined.

(** C10, as amended: for every tensor [y] that has at least one element
    outside its last two axes, [IoULoss.forward(y, y)] is exactly 0. *)
Theorem IoULoss_of_equal_tensors (y : Tensor) :
  numel (removelast (removelast (shape y))) <> O ->
  IoULoss.forward y y = Ok (Real 0).
Proof.
  intros Hne. unfold IoULoss.forward, tmul, tadd, tsub, tdiv.
  destruct (ewise_same_shape Rmult y y eq_refl) as (prod & -> & Hps & Hpe).
  cbn [bind].
  assert (Hsq : teq prod (tpow y 2)).
  { split; [exact Hps|]. intros idx Hv. rewrite Hps in Hv.
    rewrite (Hpe idx Hv). cbn. ring. }
  apply op_sum_teq in Hsq. destruct Hsq as [HIs HIe].
  set (P := IoULoss.op_sum (tpow y 2)) in *.
  set (I := IoULoss.op_sum prod) in *.
  destruct (ewise_same_shape Rplus P P eq_refl) as (T & -> & HTs & HTe).
  cbn [bind].
  destruct (ewise_same_shape Rminus T I) as (U & -> & HUs & HUe); [congruence|].
  cbn [bind].
  destruct (ewise_same_shape Rdiv (tadd_scalar I IoULoss.EPSILON)
              (tadd_scalar U IoULoss.EPSILON)) as (iou & -> & His & Hie).
  { cbn. congruence. }
  cbn [bind]. f_equal.
  assert (Hshape : shape iou = removelast (removelast (shape y))).
  { rewrite His. cbn [tadd_scalar tmap shape]. rewrite HIs. unfold P.
    rewrite shape_op_sum. reflexivity. }
  unfold mean. rewrite Hshape.
  destruct (numel (removelast (removelast (shape y)))) as [|k] eqn:Ek; [contradiction|].
  rewrite <- Hshape.
  rewrite (sum_over_ext (shape iou) (elem iou) (fun _ => 1)).
  - rewrite sum_over_const, Hshape, Ek. cbn [rsub]. f_equal.
    assert (INR (S k) <> 0) by (apply not_0_INR; discriminate).
    field. assumption.
  - intros idx Hv. rewrite His in Hv. cbn [tadd_scalar tmap shape] in Hv.
    rewrite (Hie idx Hv). cbn [tadd_scalar tmap elem].
    rewrite HTs in HUe. rewrite HIs in Hv.
    rewrite (HUe idx Hv), (HTe idx Hv). rewrite <- HIs in Hv. rewrite (HIe idx Hv).
    rewrite HIs in Hv. pose proof (op_sum_square_nonneg y idx Hv) as Hpos. fold P in Hpos.
    unfold IoULoss.EPSILON. field. lra.
Qed.

Lemma IoULoss_of_equal_tensors_witness :
  IoULoss.forward Examples.heatmap_a Examples.heatmap_a = Ok (Real 0).
Proof.
  apply (IoULoss_of_equal_tensors Examples.heatmap_a). simpl. discriminate.
Defined.

(** C10 as stated fails on a batch without samples: the mean of no numbers
    is [nan], and so is the loss. *)
Lemma IoULoss_of_empty_batch :
  IoULoss.forward Examples.empty_batch Examples.empty_batch = Ok NaN
  /\ IoULoss.forward Examples.empty_batch Examples.empty_batch <> Ok (Real 0).
Proof. split; [reflexivity|discriminate]. Qed.

End IoULossFacts.

(* ================================================================== *)
(** * The shapes the layers produce *)

Lemma Linear_forward_shape (l : Linear.t) (x : Tensor) (lead : list nat) :
  shape x = lead ++ [Linear.in_features l] ->
  exists y, Linear.forward l x = Ok y /\ shape y = lead ++ [Linear.out_features l].
Proof.
  intros Hs. unfold Linear.forward. rewrite Hs.
  rewrite last_last, removelast_last, Nat.eqb_refl.
  destruct (lead ++ [Linear.in_features l]) eqn:E; [destruct lead; discriminate|].
  eexists. split; reflexivity.
Qed.

Lemma LayerNorm_forward_shape (l : LayerNorm.t) (x : Tensor) (lead : list nat) :
  shape x = lead ++ [LayerNorm.normalized_shape l] ->
  exists y, LayerNorm.forward l x = Ok y /\ shape y = shape x.
Proof.
  intros Hs. unfold LayerNorm.forward. rewrite Hs.
  rewrite last_last, Nat.eqb_refl.
  destruct (lead ++ [LayerNorm.normalized_shape l]) eqn:E; [destruct lead; discriminate|].
  eexists. split; reflexivity.
Qed.

Lemma iadd_same_shape (x y : Tensor) :
  shape y = shape x ->
  exists z, iadd x y = Ok z /\ shape z = shape x.
Proof.
  intros Hs. unfold iadd. rewrite Hs, broadcast_shapes_refl.
  destruct (list_eq_dec Nat.eq_dec (shape x) (shape x)); [|contradiction].
  eexists. split; reflexivity.
Qed.

Ltac step_linear lead :=
  match goal with
  | |- context [Linear.forward ?l ?t] =>
      let y := fresh "y" in
      let Hy := fresh "Hy" in
      let Hys := fresh "Hys" in
      destruct (Linear_forward_shape l t lead) as (y & Hy & Hys);
      [ | rewrite Hy; cbn [bind] ]
  end.

Ltac step_norm lead :=
  match goal with
  | |- context [LayerNorm.forward ?l ?t] =>
      let y := fresh "y" in
      let Hy := fresh "Hy" in
      let Hys := fresh "Hys" in
      destruct (LayerNorm_forward_shape l t lead) as (y & Hy & Hys);
      [ | rewrite Hy; cbn [bind] ]
  end.

Lemma ResidualAdd_shape (fn : Tensor -> result Tensor) (x : Tensor) :
  (exists y, fn x = Ok y /\ shape y = shape x) ->
  exists z, ResidualAdd.forward fn x = Ok z /\ shape z = shape x.
Proof.
  intros (y & Hy & Hs). unfold ResidualAdd.forward. rewrite Hy. cbn [bind].
  destruct (iadd_same_shape y x) as (z & -> & Hz); [congruence|].
  cbn [bind]. eexists. split; [reflexivity|congruence].
Qed.

Ltac step_residual :=
  match goal with
  | |- context [ResidualAdd.forward ?fn ?t] =>
      let y := fresh "y" in
      let Hy := fresh "Hy" in
      let Hys := fresh "Hys" in
      destruct (ResidualAdd_shape fn t) as (y & Hy & Hys);
      [ | rewrite Hy; cbn [bind] ]
  end.

Lemma heads_divide (e h : nat) : h <> O -> e mod h = O -> (h * (e / h))%nat = e.
Proof.
  intros Hh Hm. pose proof (Nat.div_mod_eq e h). lia.
Qed.

Lemma rearrange_heads_shape (y : Tensor) (b n e h : nat) :
  h <> O -> e mod h = O -> shape y = [b; n; e] ->
  exists z, einops.rearrange_b_n_hd__b_h_n_d y h = Ok z
            /\ shape z = [b; h; n; (e / h)%nat].
Proof.
  intros Hh Hm Hy. unfold einops.rearrange_b_n_hd__b_h_n_d. rewrite Hy.
  destruct (Nat.eqb_spec h 0) as [|_]; [contradiction|].
  rewrite Hm. cbn [Nat.eqb negb orb]. eexists. split; reflexivity.
Qed.

Ltac step_heads :=
  match goal with
  | H : shape ?t = [?b; ?n; ?e] |- context [einops.rearrange_b_n_hd__b_h_n_d ?t ?h] =>
      let y := fresh "y" in
      let Hy := fresh "Hy" in
      let Hys := fresh "Hys" in
      destruct (rearrange_heads_shape t b n e h) as (y & Hy & Hys);
      [ try assumption .. | rewrite Hy; cbn [bind] ]
  end.

(** What [attention] computes on a well-shaped input: an exception at the
    masking step when a mask is given; without a mask, weights that are
    normalised across the heads and then divided by the square root of the
    embedding size. *)
Lemma MultiHeadAttention_attention_spec (prefix : string) (theta : state_dict)
    (e h : nat) (p : R) (x : Tensor) (mask : option Tensor) (b n : nat) :
  h <> O -> e mod h = O -> shape x = [b; n; e] ->
  exists att v,
    MultiHeadAttention.attention (MultiHeadAttention.init prefix theta e h p) x mask
      = match mask with
        | None => Ok (att, v)
        | Some _ => Raise (AttributeError "mask_fill")
        end
    /\ shape att = [b; h; n; n] /\ shape v = [b; h; n; (e / h)%nat]
    /\ forall bi q k,
         (Rsum h (fun hi => elem att [bi; hi; q; k]) = 1 / sqrt (INR e))%R.
Proof.
  intros Hh Hm Hs. unfold MultiHeadAttention.attention, MultiHeadAttention.init.
  cbn [MultiHeadAttention.keys MultiHeadAttention.queries MultiHeadAttention.values
       MultiHeadAttention.num_heads MultiHeadAttention.emb_size
       MultiHeadAttention.attention_drop].
  step_linear [b; n]; [exact Hs|]. cbn [Linear.init Linear.out_features app] in Hys.
  step_heads.
  step_linear [b; n]; [exact Hs|]. cbn [Linear.init Linear.out_features app] in Hys1.
  step_heads.
  step_linear [b; n]; [exact Hs|]. cbn [Linear.init Linear.out_features app] in Hys3.
  step_heads.
  unfold torch.einsum_bhqd_bhkd__bhqk. rewrite Hys0, Hys2, !Nat.eqb_refl.
  cbn [andb bind].
  unfold torch.softmax_dim1. cbn [shape bind Dropout fst snd].
  do 2 eexists. split; [|split; [|split]].
  - destruct mask; cbn; reflexivity.
  - reflexivity.
  - assumption.
  - intros bi q k. cbn [tdiv_scalar tmap elem].
    rewrite Rsum_scale.
    match goal with |- (?s / ?s / _ = _)%R => assert (Hpos : (0 < s)%R) end.
    { apply Rsum_pos; [exact Hh|]. intros i. apply exp_pos. }
    unfold Rdiv. rewrite Rinv_r by lra. reflexivity.
Qed.

Lemma MultiHeadAttention_attention_shape (prefix : string) (theta : state_dict)
    (e h : nat) (p : R) (x : Tensor) (b n : nat) :
  h <> O -> e mod h = O -> shape x = [b; n; e] ->
  exists att v,
    MultiHeadAttention.attention (MultiHeadAttention.init prefix theta e h p) x None
      = Ok (att, v)
    /\ shape att = [b; h; n; n] /\ shape v = [b; h; n; (e / h)%nat].
Proof.
  intros Hh Hm Hs.
  destruct (MultiHeadAttention_attention_spec prefix theta e h p x None b n Hh Hm Hs)
    as (att & v & H1 & H2 & H3 & _).
  exists att, v. auto.
Qed.

Lemma MultiHeadAttention_forward_shape (prefix : string) (theta : state_dict)
    (e h : nat) (p : R) (x : Tensor) (b n : nat) :
  h <> O -> e mod h = O -> shape x = [b; n; e] ->
  exists out,
    MultiHeadAttention.forward (MultiHeadAttention.init prefix theta e h p) x None = Ok out
    /\ shape out = [b; n; e].
Proof.
  intros Hh Hm Hs. unfold MultiHeadAttention.forward.
  destruct (MultiHeadAttention_attention_shape prefix theta e h p x b n Hh Hm Hs)
    as (att & v & -> & Hatt & Hv).
  cbn [bind fst snd].
  unfold torch.einsum_bhal_bhlv__bhav. rewrite Hatt, Hv, !Nat.eqb_refl.
  cbn [andb bind]. unfold einops.rearrange_b_h_n_d__b_n_hd. cbn [shape bind].
  step_linear [b; n].
  { cbn. rewrite (heads_divide e h Hh Hm). reflexivity. }
  eexists. split; [reflexivity|exact Hys].
Qed.

Lemma FeedForwardBlock_forward_shape (prefix : string) (theta : state_dict)
    (GELU : R -> R) (e k : nat) (p : R) (x : Tensor) (b n : nat) :
  shape x = [b; n; e] ->
  exists out,
    FeedForwardBlock.forward (FeedForwardBlock.init prefix theta GELU e k p) x = Ok out
    /\ shape out = [b; n; e].
Proof.
  intros Hs. unfold FeedForwardBlock.forward, FeedForwardBlock.init.
  cbn [FeedForwardBlock.fc1 FeedForwardBlock.fc2 FeedForwardBlock.act
       FeedForwardBlock.drop_p Sequential].
  step_linear [b; n]; [exact Hs|]. cbn [Dropout bind].
  step_linear [b; n]; [cbn [tmap shape]; exact Hys|].
  eexists. split; [reflexivity|exact Hys0].
Qed.

Lemma EncoderBlock_forward_shape (prefix : string) (theta : state_dict)
    (GELU : R -> R) (kw : kwargs) (x : Tensor) (b n : nat) :
  let e := default 768 (kw_emb_size kw) in
  let h := default 8 (kw_num_heads kw) in
  h <> O -> e mod h = O -> shape x = [b; n; e] ->
  exists out,
    EncoderBlock.forward (EncoderBlock.init prefix theta GELU kw) x = Ok out
    /\ shape out = [b; n; e].
Proof.
  intros e h Hh Hm Hs. unfold EncoderBlock.forward, EncoderBlock.init.
  cbn [EncoderBlock.norm1 EncoderBlock.attn EncoderBlock.drop1 EncoderBlock.norm2
       EncoderBlock.ff EncoderBlock.drop2].
  fold e h. cbn [Sequential].
  step_residual.
  { cbn [Sequential]. step_norm [b; n]; [exact Hs|].
    destruct (MultiHeadAttention_forward_shape (prefix ++ "0.fn.1.") theta e h
                (default 0%R (kw_dropout kw)) y b n Hh Hm) as (z & -> & Hz);
      [congruence|].
    cbn [bind Dropout]. eexists. split; [reflexivity|congruence]. }
  rewrite Hs in Hys.
  step_residual.
  { cbn [Sequential]. step_norm [b; n]; [exact Hys|].
    destruct (FeedForwardBlock_forward_shape (prefix ++ "1.fn.1.") theta GELU e
                (default 4 (kw_forward_expansion kw))
                (default 0%R (kw_forward_drop_p kw)) y0 b n) as (z & -> & Hz);
      [congruence|].
    cbn [bind Dropout]. eexists. split; [reflexivity|congruence]. }
  eexists. split; [reflexivity|congruence].
Qed.

Lemma Sequential_keeps_shape (layers : list (Tensor -> result Tensor)) (s : list nat) :
  Forall (fun f => forall x, shape x = s -> exists y, f x = Ok y /\ shape y = s) layers ->
  forall x, shape x = s -> exists y, Sequential layers x = Ok y /\ shape y = s.
Proof.
  induction 1 as [|f layers Hf _ IH]; intros x Hx.
  - exists x. split; [reflexivity|exact Hx].
  - cbn [Sequential]. destruct (Hf x Hx) as (y & -> & Hy). cbn [bind].
    apply IH, Hy.
Qed.

Lemma TransformerEncoder_forward_shape (prefix : string) (theta : state_dict)
    (GELU : R -> R) (depth : nat) (kw : kwargs) (x : Tensor) (b n : nat) :
  let e := default 768 (kw_emb_size kw) in
  let h := default 8 (kw_num_heads kw) in
  h <> O -> e mod h = O -> shape x = [b; n; e] ->
  exists out,
    TransformerEncoder.forward (TransformerEncoder.init prefix theta GELU depth kw) x
      = Ok out
    /\ shape out = [b; n; e].
Proof.
  intros e h Hh Hm Hs. unfold TransformerEncoder.forward, TransformerEncoder.init.
  apply Sequential_keeps_shape; [|exact Hs].
  rewrite map_map. apply Forall_map, Forall_forall. intros i _ y Hy.
  apply EncoderBlock_forward_shape; assumption.
Qed.

Lemma ClassificationHead_forward_shape (prefix : string) (theta : state_dict)
    (e k : nat) (x : Tensor) (b n : nat) :
  shape x = [b; n; e] ->
  exists out,
    ClassificationHead.forward (ClassificationHead.init prefix theta e k) x = Ok out
    /\ shape out = [b; k].
Proof.
  intros Hs. unfold ClassificationHead.forward, ClassificationHead.init.
  cbn [ClassificationHead.norm ClassificationHead.fc Sequential].
  unfold einops.reduce_mean_b_n_e__b_e. rewrite Hs. cbn [bind].
  step_norm [b]; [reflexivity|]. cbn [shape] in Hys.
  step_linear [b]; [exact Hys|].
  eexists. split; [reflexivity|exact Hys0].
Qed.

Lemma MultiHeadAttention_masked_never_ok (self : MultiHeadAttention.t) (x mask : Tensor) :
  exists e, MultiHeadAttention.forward self x (Some mask) = Raise e.
Proof.
  unfold MultiHeadAttention.forward, MultiHeadAttention.attention.
  destruct (Linear.forward (MultiHeadAttention.keys self) x) as [k|e];
    cbn [bind]; [|eauto].
  destruct (einops.rearrange_b_n_hd__b_h_n_d k _) as [k'|e]; cbn [bind]; [|eauto].
  destruct (Linear.forward (MultiHeadAttention.queries self) x) as [q|e];
    cbn [bind]; [|eauto].
  destruct (einops.rearrange_b_n_hd__b_h_n_d q _) as [q'|e]; cbn [bind]; [|eauto].
  destruct (Linear.forward (MultiHeadAttention.values self) x) as [v|e];
    cbn [bind]; [|eauto].
  destruct (einops.rearrange_b_n_hd__b_h_n_d v _) as [v'|e]; cbn [bind]; [|eauto].
  destruct (torch.einsum_bhqd_bhkd__bhqk q' k') as [energy|e]; cbn [bind]; [|eauto].
  cbn. eauto.
Qed.

(** C9: with a mask, [forward] never returns a tensor: on a well-shaped
    input it raises the AttributeError of the missing [mask_fill] at the
    masking step (and an earlier shape error otherwise); without a mask the
    forward pass of a well-shaped input succeeds. *)
Theorem MultiHeadAttention_mask (self : MultiHeadAttention.t) (x mask : Tensor) :
  (forall out, MultiHeadAttention.forward self x (Some mask) <> Ok out)
  /\ (forall prefix theta e h p b n,
        self = MultiHeadAttention.init prefix theta e h p ->
        h <> O -> e mod h = O -> shape x = [b; n; e] ->
        MultiHeadAttention.forward self x (Some mask) = Raise (AttributeError "mask_fill")
        /\ exists out, MultiHeadAttention.forward self x None = Ok out
                       /\ shape out = [b; n; e]).
Proof.
  split.
  - intros out. destruct (MultiHeadAttention_masked_never_ok self x mask) as (e & ->).
    discriminate.
  - intros prefix theta e h p b n -> Hh Hm Hs. split.
    + unfold MultiHeadAttention.forward.
      destruct (MultiHeadAttention_attention_spec prefix theta e h p x (Some mask) b n
                  Hh Hm Hs) as (att & v & -> & _).
      reflexivity.
    + apply MultiHeadAttention_forward_shape; assumption.
Qed.

Lemma MultiHeadAttention_mask_witness :
  MultiHeadAttention.forward
    (MultiHeadAttention.init "" Examples.halves 4 2 0%R) Examples.tokens
    (Some Examples.mask)
  = Raise (AttributeError "mask_fill")
  /\ exists out,
       MultiHeadAttention.forward
         (MultiHeadAttention.init "" Examples.halves 4 2 0%R) Examples.tokens None
       = Ok out
       /\ shape out = [1; 3; 4].
Proof.
  apply (proj2 (MultiHeadAttention_mask
                  (MultiHeadAttention.init "" Examples.halves 4 2 0%R)
                  Examples.tokens Examples.mask)
               ""%string Examples.halves 4 2 0%R 1 3);
    [reflexivity|discriminate|reflexivity|reflexivity].
Defined.

(** The attention of the paper: every row of weights sums to one. *)
Lemma paper_rows_sum_to_one (energy : Tensor) (lead : list nat) (n : nat) :
  shape energy = lead ++ [n] -> n <> O ->
  forall idx,
    Rsum n (fun k => elem (AttentionSpec.softmax_last energy) (idx ++ [k])) = 1%R.
Proof.
  intros Hs Hn idx. unfold AttentionSpec.softmax_last. cbn [elem]. rewrite Hs, last_last.
  rewrite (Rsum_ext n _ (fun k => (exp (elem energy (idx ++ [k]))
                                   / Rsum n (fun j => exp (elem energy (idx ++ [j])))
                                   / 1)%R)).
  - rewrite Rsum_scale.
    assert (0 < Rsum n (fun j => exp (elem energy (idx ++ [j]))))%R.
    { apply Rsum_pos; [exact Hn|]. intros i. apply exp_pos. }
    field. lra.
  - intros k _. rewrite removelast_last. field.
    apply Rgt_not_eq, Rlt_gt, Rsum_pos; [exact Hn|]. intros i. apply exp_pos.
Qed.

(** C2 fails on the code: the softmax of [forward] runs over the heads
    (dim=1) and the division by the square root of the embedding size comes
    after it, so the weights of a query do not sum to one over the keys.
    With two heads of width two and three tokens, whatever the parameters
    and the input. *)
Theorem MultiHeadAttention_rows_do_not_sum_to_one
    (prefix : string) (theta : state_dict) (p : R) (f : list nat -> R) :
  exists att v,
    MultiHeadAttention.attention (MultiHeadAttention.init prefix theta 4 2 p)
      (mkTensor [1; 3; 4] f) None = Ok (att, v)
    /\ shape att = [1; 2; 3; 3]
    /\ ~ (forall hi q, (hi < 2)%nat -> (q < 3)%nat ->
           Rsum 3 (fun k => elem att [O; hi; q; k]) = 1%R).
Proof.
  destruct (MultiHeadAttention_attention_spec prefix theta 4 2 p
              (mkTensor [1; 3; 4] f) None 1 3) as (att & v & Hatt & Hs & _ & Hsum);
    [discriminate|reflexivity|reflexivity|].
  exists att, v. split; [exact Hatt|]. split; [exact Hs|].
  intros Hrows.
  pose proof (Hrows 0%nat 0%nat ltac:(lia) ltac:(lia)) as R0.
  pose proof (Hrows 1%nat 0%nat ltac:(lia) ltac:(lia)) as R1.
  pose proof (Hsum 0%nat 0%nat 0%nat) as S0.
  pose proof (Hsum 0%nat 0%nat 1%nat) as S1.
  pose proof (Hsum 0%nat 0%nat 2%nat) as S2.
  assert (Hsqrt : sqrt (INR 4) = 2%R).
  { replace (INR 4) with (2 * 2)%R by (simpl; ring). apply sqrt_square. lra. }
  rewrite Hsqrt in S0, S1, S2. cbn [Rsum] in *. lra.
Qed.


(* ================================================================== *)
(** * PatchEmbedding *)

Section PatchEmbeddingFacts.

Local Open Scope R_scope.

Lemma conv_grid (img p : nat) : p <> O -> (p <= img)%nat -> ((img - p) / p + 1 = img / p)%nat.
Proof.
  intros Hp Hle. replace img with ((img - p) + 1 * p)%nat at 2 by lia.
  rewrite Nat.div_add by exact Hp. reflexivity.
Qed.

Lemma PatchEmbedding_init_ok (prefix : string) (theta : state_dict)
    (c p e img : nat) (pe : PatchEmbedding.t) :
  PatchEmbedding.init prefix theta c p e img = Ok pe ->
  p <> O
  /\ PatchEmbedding.patch_size pe = p
  /\ PatchEmbedding.projection pe = Conv2d.init (prefix ++ "projection.0.") theta c e p p
  /\ shape (PatchEmbedding.class_token pe) = [1; 1; e]%nat
  /\ shape (PatchEmbedding.positions pe) = [((img / p) ^ 2 + 1)%nat; e].
Proof.
  unfold PatchEmbedding.init. destruct (Nat.eqb_spec p 0) as [|Hp]; [discriminate|].
  intros [= <-]. cbn. repeat split; try reflexivity. exact Hp.
Qed.

Lemma PatchEmbedding_forward_spec (prefix : string) (theta : state_dict)
    (c p e img : nat) (pe : PatchEmbedding.t) (x : Tensor) (b : nat) :
  PatchEmbedding.init prefix theta c p e img = Ok pe ->
  (p <= img)%nat ->
  shape x = [b; c; img; img] ->
  let g := (img / p)%nat in
  exists out,
    PatchEmbedding.forward pe x = Ok out
    /\ shape out = [b; (1 + g * g)%nat; e]
    /\ (forall n k, (k < e)%nat ->
          elem out [n; O; k]
          = elem (PatchEmbedding.class_token pe) [O; O; k]
            + elem (PatchEmbedding.positions pe) [O; k])
    /\ (forall n i j k, (i < g)%nat -> (j < g)%nat -> (k < e)%nat ->
          elem out [n; (1 + (i * g + j))%nat; k]
          = PatchSpec.projected_patch pe x n i j k
            + elem (PatchEmbedding.positions pe) [(1 + (i * g + j))%nat; k]).
Proof.
  intros Hinit Hle Hs g.
  destruct (PatchEmbedding_init_ok _ _ _ _ _ _ _ Hinit) as (Hp & Hps & Hproj & Hct & Hpos).
  unfold PatchEmbedding.forward, torch.shape0. rewrite Hs. cbn [bind Sequential].
  rewrite Hproj. unfold Conv2d.forward at 1. rewrite Hs.
  cbn [Conv2d.init Conv2d.in_channels Conv2d.stride Conv2d.kernel_size
       Conv2d.out_channels Conv2d.weight Conv2d.bias].
  rewrite Nat.eqb_refl. cbn [negb].
  destruct (Nat.eqb_spec p 0) as [|_]; [contradiction|].
  destruct (Nat.ltb_spec img p) as [|_]; [lia|]. cbn [orb bind].
  rewrite (conv_grid img p Hp Hle). fold g.
  unfold einops.rearrange_b_e_h_w__b_hw_e at 1. cbn [shape bind].
  unfold einops.repeat_1_n_e__b_n_e. rewrite Hct. cbn [Nat.eqb bind].
  unfold torch.cat1. cbn [shape]. rewrite Nat.eqb_refl.
  destruct (list_eq_dec Nat.eq_dec [e] [e]) as [_|]; [|contradiction].
  cbn [andb bind].
  unfold iadd. cbn [shape]. rewrite Hpos. fold g.
  unfold broadcast_shapes. cbn [rev app broadcast_rev].
  rewrite Nat.eqb_refl.
  replace (g ^ 2 + 1)%nat with (1 + g * g)%nat by (cbn [Nat.pow]; lia).
  rewrite Nat.eqb_refl. cbn [option_map rev app].
  destruct (list_eq_dec Nat.eq_dec [b; (1 + g * g)%nat; e] [b; (1 + g * g)%nat; e])
    as [_|]; [|contradiction].
  cbn [bind]. eexists. split; [reflexivity|]. split; [reflexivity|].
  cbn [elem]. unfold bidx. cbn [List.length Nat.sub skipn combine map fst snd].
  assert (Hlast : forall k, (k < e)%nat -> (if (e =? 1)%nat then O else k) = k).
  { intros k Hk. destruct (Nat.eqb_spec e 1); lia. }
  split.
  - intros n k Hk. rewrite (Hlast k Hk). cbn [Nat.ltb Nat.leb].
    destruct (1 + g * g =? 1)%nat; reflexivity.
  - intros n i j k Hi Hj Hk. rewrite (Hlast k Hk).
    assert (Hg : g <> O) by lia.
    destruct (Nat.eqb_spec (1 + g * g) 1) as [E|_]; [nia|].
    destruct (Nat.ltb_spec (1 + (i * g + j)) 1) as [|_]; [lia|].
    replace (1 + (i * g + j) - 1)%nat with (i * g + j)%nat by lia.
    rewrite Nat.div_add_l, (Nat.div_small j g), Nat.add_0_r by assumption.
    rewrite Nat.add_comm, Nat.Div0.mod_add, (Nat.mod_small j g) by assumption.
    unfold PatchSpec.projected_patch, PatchSpec.pixel. rewrite Hps, Hproj.
    cbn [Conv2d.init Conv2d.in_channels Conv2d.weight Conv2d.bias]. reflexivity.
Qed.

(** Patches do not overlap: a pixel row (or column) lies in one patch, at
    one offset. *)
Lemma patches_do_not_overlap (p i u i' u' : nat) :
  (u < p)%nat -> (u' < p)%nat ->
  PatchSpec.pixel p i u = PatchSpec.pixel p i' u' -> i = i' /\ u = u'.
Proof.
  unfold PatchSpec.pixel. intros Hu Hu' H.
  assert (Hp : p <> O) by lia.
  assert (Hi : i = i').
  { apply (f_equal (fun z => (z / p)%nat)) in H.
    rewrite !Nat.div_add_l, (Nat.div_small u p), (Nat.div_small u' p) in H
      by assumption.
    lia. }
  subst i'. split; [reflexivity|lia].
Qed.

(** C7: on a batch of shape (b, in_channels, img_size, img_size) the forward
    pass returns (img_size // patch_size)^2 + 1 tokens of width emb_size per
    image; the first is the class token, the others are the linear
    projections of the patch_size x patch_size patches in row-major order,
    and every token has its row of the position embedding added.  The
    module is one that its constructor built, for a patch that fits the
    image. *)
Theorem PatchEmbedding_forward_tokens (prefix : string) (theta : state_dict)
    (in_channels patch_size emb_size img_size : nat)
    (pe : PatchEmbedding.t) (x : Tensor) (b : nat) :
  PatchEmbedding.init prefix theta in_channels patch_size emb_size img_size = Ok pe ->
  (patch_size <= img_size)%nat ->
  shape x = [b; in_channels; img_size; img_size] ->
  let g := (img_size / patch_size)%nat in
  exists out,
    PatchEmbedding.forward pe x = Ok out
    /\ shape out = [b; (g ^ 2 + 1)%nat; emb_size]
    /\ (forall n k, (k < emb_size)%nat ->
          elem out [n; O; k]
          = elem (PatchEmbedding.class_token pe) [O; O; k]
            + elem (PatchEmbedding.positions pe) [O; k])
    /\ (forall n i j k, (i < g)%nat -> (j < g)%nat -> (k < emb_size)%nat ->
          elem out [n; (1 + (i * g + j))%nat; k]
          = PatchSpec.projected_patch pe x n i j k
            + elem (PatchEmbedding.positions pe) [(1 + (i * g + j))%nat; k])
    /\ (forall i u i' u', (u < patch_size)%nat -> (u' < patch_size)%nat ->
          PatchSpec.pixel patch_size i u = PatchSpec.pixel patch_size i' u' ->
          i = i' /\ u = u').
Proof.
  intros Hinit Hle Hs g.
  destruct (PatchEmbedding_forward_spec prefix theta in_channels patch_size emb_size
              img_size pe x b Hinit Hle Hs) as (out & Hout & Hshape & Hcls & Hpatch).
  exists out. split; [exact Hout|]. split; [|split; [exact Hcls|split; [exact Hpatch|]]].
  - rewrite Hshape. fold g. do 2 f_equal. cbn [Nat.pow]. lia.
  - intros i u i' u'. apply patches_do_not_overlap.
Qed.

Lemma PatchEmbedding_forward_tokens_witness :
  exists pe,
    PatchEmbedding.init "" Examples.halves 1 2 3 4 = Ok pe
    /\ exists out,
         PatchEmbedding.forward pe Examples.small_images = Ok out
         /\ shape out = [2; 5; 3]%nat.
Proof.
  eexists. split; [reflexivity|].
  assert (Hfit : (2 <= 4)%nat) by lia.
  match goal with
  | |- exists out, PatchEmbedding.forward ?pe _ = _ /\ _ =>
      destruct (PatchEmbedding_forward_tokens ""%string Examples.halves 1 2 3 4 pe
                  Examples.small_images 2 eq_refl Hfit eq_refl)
        as (out & Hout & Hshape & _)
  end.
  exists out. split; [exact Hout|exact Hshape].
Defined.

End PatchEmbeddingFacts.

(* ================================================================== *)
(** * ViT *)

Section ViTFacts.

Lemma ViT_forward_shape (theta : state_dict) (GELU : R -> R)
    (c p e img depth k : nat) (kw : kwargs) (vit : ViT.t) (x : Tensor) (b : nat) :
  ViT.init theta GELU c p e img depth k kw = Ok vit ->
  (p <= img)%nat ->
  e = 768%nat ->
  default 8 (kw_num_heads kw) <> O ->
  768 mod default 8 (kw_num_heads kw) = O ->
  shape x = [b; c; img; img] ->
  exists out, ViT.forward vit x = Ok out /\ shape out = [b; k].
Proof.
  intros Hinit Hle He Hh Hm Hs. unfold ViT.init in Hinit.
  destruct (PatchEmbedding.init "0." theta c p e img) as [pe|err] eqn:Hpe;
    [|discriminate].
  cbn [bind] in Hinit. injection Hinit as <-.
  unfold ViT.forward. cbn [ViT.embedding ViT.encoder ViT.head Sequential].
  destruct (PatchEmbedding_forward_spec "0." theta c p e img pe x b Hpe Hle Hs)
    as (tokens & -> & Htok & _).
  cbn [bind].
  destruct (TransformerEncoder_forward_shape "1." theta GELU depth
              (mkKwargs None (kw_drop_p kw) (kw_forward_expansion kw)
                 (kw_forward_drop_p kw) (kw_num_heads kw) (kw_dropout kw))
              tokens b (1 + img / p * (img / p))) as (enc & -> & Henc).
  { exact Hh. } { exact Hm. } { rewrite Htok, He. reflexivity. }
  cbn [bind].
  destruct (ClassificationHead_forward_shape "2." theta e k enc b
              (1 + img / p * (img / p))) as (out & -> & Hout).
  { rewrite Henc, He. reflexivity. }
  cbn [bind]. exists out. split; [reflexivity|exact Hout].
Qed.

(** The encoder is always 768 wide: built with another embedding size (and
    at least one block), the model stops at the first LayerNorm of the
    encoder. *)
Lemma ViT_other_width_raises (theta : state_dict) (GELU : R -> R)
    (c p e img depth k : nat) (kw : kwargs) (vit : ViT.t) (x : Tensor) (b : nat) :
  ViT.init theta GELU c p e img (S depth) k kw = Ok vit ->
  (p <= img)%nat ->
  e <> 768%nat ->
  shape x = [b; c; img; img] ->
  exists err, ViT.forward vit x = Raise err.
Proof.
  intros Hinit Hle He Hs. unfold ViT.init in Hinit.
  destruct (PatchEmbedding.init "0." theta c p e img) as [pe|err] eqn:Hpe;
    [|discriminate].
  cbn [bind] in Hinit. injection Hinit as <-.
  unfold ViT.forward. cbn [ViT.embedding ViT.encoder ViT.head Sequential].
  destruct (PatchEmbedding_forward_spec "0." theta c p e img pe x b Hpe Hle Hs)
    as (tokens & -> & Htok & _).
  cbn [bind].
  unfold TransformerEncoder.forward, TransformerEncoder.init.
  cbn [seq map Sequential].
  unfold EncoderBlock.forward at 1. cbn [Sequential].
  unfold ResidualAdd.forward at 1. cbn [Sequential].
  unfold LayerNorm.forward at 1. rewrite Htok.
  cbn [last EncoderBlock.init EncoderBlock.norm1 LayerNorm.init
       LayerNorm.normalized_shape kw_emb_size default].
  destruct (Nat.eqb_spec e 768) as [|_]; [contradiction|].
  cbn [bind]. eexists. reflexivity.
Qed.

(** C1, as amended: for a batch of shape (b, in_channels, img_size,
    img_size), the forward pass of a ViT built with the embedding size of
    its encoder (768), a patch that fits the image and a number of heads
    that divides 768 returns one flat vector of out_channels numbers per
    image, shape (b, out_channels), and no 2D map per keypoint. *)
Theorem ViT_forward_is_a_vector_per_image (theta : state_dict) (GELU : R -> R)
    (in_channels patch_size emb_size img_size depth out_channels : nat)
    (kw : kwargs) (vit : ViT.t) (x : Tensor) (b : nat) :
  ViT.init theta GELU in_channels patch_size emb_size img_size depth out_channels kw
    = Ok vit ->
  (patch_size <= img_size)%nat ->
  emb_size = 768%nat ->
  default 8 (kw_num_heads kw) <> O ->
  768 mod default 8 (kw_num_heads kw) = O ->
  shape x = [b; in_channels; img_size; img_size] ->
  exists out,
    ViT.forward vit x = Ok out
    /\ shape out = [b; out_channels]
    /\ ~ heatmaps b out_channels out.
Proof.
  intros Hinit Hle He Hh Hm Hs.
  destruct (ViT_forward_shape theta GELU in_channels patch_size emb_size img_size depth
              out_channels kw vit x b Hinit Hle He Hh Hm Hs) as (out & Hout & Hshape).
  exists out. split; [exact Hout|]. split; [exact Hshape|].
  intros (h & w & Hmap). rewrite Hshape in Hmap. discriminate.
Qed.

Lemma ViT_forward_is_a_vector_per_image_witness :
  exists vit,
    ViT.init Examples.halves (fun v => v) 3 32 768 224 12 50 no_kwargs = Ok vit
    /\ exists out,
         ViT.forward vit Examples.image = Ok out /\ shape out = [1; 50]%nat.
Proof.
  eexists. split; [reflexivity|].
  assert (Hfit : (32 <= 224)%nat) by lia.
  assert (Hheads : default 8 (kw_num_heads no_kwargs) <> O) by discriminate.
  match goal with
  | |- exists out, ViT.forward ?vit _ = _ /\ _ =>
      destruct (ViT_forward_is_a_vector_per_image Examples.halves (fun v => v)
                  3 32 768 224 12 50 no_kwargs vit Examples.image 1
                  eq_refl Hfit eq_refl Hheads eq_refl eq_refl)
        as (out & Hout & Hshape & _)
  end.
  exists out. split; [exact Hout|exact Hshape].
Defined.

(** C1 as stated fails on the model with its default settings: the output
    for one 224x224 RGB image is a tensor of shape (1, 50), not a 2D map
    for each of the 50 output channels. *)
Lemma ViT_output_is_not_a_heatmap :
  exists vit,
    ViT.init Examples.halves (fun v => v) 3 32 768 224 12 50 no_kwargs = Ok vit
    /\ exists out,
         ViT.forward vit Examples.image = Ok out
         /\ shape out = [1; 50]%nat
         /\ ~ heatmaps 1 50 out.
Proof.
  assert (Hfit : (32 <= 224)%nat) by lia.
  assert (Hheads : default 8 (kw_num_heads no_kwargs) <> O) by discriminate.
  eexists. split; [reflexivity|].
  match goal with
  | |- exists out, ViT.forward ?vit _ = _ /\ _ =>
      destruct (ViT_forward_shape Examples.halves (fun v => v)
                  3 32 768 224 12 50 no_kwargs vit Examples.image 1
                  eq_refl Hfit eq_refl Hheads eq_refl eq_refl)
        as (out & Hout & Hshape)
  end.
  exists out. split; [exact Hout|]. split; [exact Hshape|].
  intros (h & w & Hmap). rewrite Hshape in Hmap. discriminate.
Qed.

End ViTFacts.

(* ================================================================== *)
(** * The training loop *)

Import Main.
Import TrainSpec.
Import SchedulerSpec.

Section TrainFacts.

Variable scheduler_t : Type.
Variable scheduler_step : scheduler_t -> Q -> scheduler_t.
Variable world : passes.
Variable epochs : nat.
Variable checkpoint_frequency : nat.
Variable early_stopping_avg : nat.
Variable early_stopping_precision : Z.
Variable early_stopping_epochs : nat.

Local Abbreviation body := (body scheduler_step world epochs checkpoint_frequency
                       early_stopping_avg early_stopping_precision
                       early_stopping_epochs).
Local Abbreviation loop := (loop scheduler_step world epochs checkpoint_frequency
                       early_stopping_avg early_stopping_precision
                       early_stopping_epochs).
Local Abbreviation train := (train scheduler_step world epochs checkpoint_frequency
                       early_stopping_avg early_stopping_precision
                       early_stopping_epochs).
Local Abbreviation state_after := (state_after scheduler_t scheduler_step world epochs checkpoint_frequency
                           early_stopping_avg early_stopping_precision
                           early_stopping_epochs).
Local Abbreviation exhausted := (exhausted world early_stopping_avg early_stopping_precision
                         early_stopping_epochs).
Local Abbreviation stall := (stall world early_stopping_avg early_stopping_precision).
Local Abbreviation failed := (failed world early_stopping_avg early_stopping_precision).
Local Abbreviation running_min := (running_min world early_stopping_avg early_stopping_precision).
Local Abbreviation threshold := (threshold world early_stopping_avg early_stopping_precision).
Local Abbreviation epoch_log := (epoch_log world epochs checkpoint_frequency
  early_stopping_avg early_stopping_precision early_stopping_epochs).
Local Abbreviation recent_mean := (recent_mean world early_stopping_avg early_stopping_precision).
Local Abbreviation epochs_done := (epochs_done world epochs early_stopping_avg
                           early_stopping_precision early_stopping_epochs).

Lemma map_seq_snoc {A : Type} (f : nat -> A) (k : nat) :
  map f (seq 0 k) ++ [f k] = map f (seq 0 (S k)).
Proof. rewrite seq_S, map_app. reflexivity. Qed.

Lemma slice_last_short {A : Type} (k : nat) (l : list A) :
  (List.length l <= k)%nat -> slice_last k l = l.
Proof.
  intros H. unfold slice_last. destruct k; [reflexivity|].
  replace (List.length l - S k)%nat with O by lia. reflexivity.
Qed.

Lemma running_min_start : running_min early_stopping_avg = recent_mean (early_stopping_avg - 1).
Proof. unfold TrainSpec.running_min. rewrite Nat.sub_diag. reflexivity. Qed.

Lemma running_min_step (k : nat) :
  (early_stopping_avg <= k)%nat ->
  running_min (S k) = lower (running_min k) (recent_mean k).
Proof.
  intros H. unfold TrainSpec.running_min.
  replace (S k - early_stopping_avg)%nat with (S (k - early_stopping_avg)) by lia.
  rewrite seq_S, map_app, fold_left_app.
  replace (early_stopping_avg + (k - early_stopping_avg))%nat with k by lia.
  reflexivity.
Qed.

Lemma stall_warmup (k : nat) : (k < early_stopping_avg)%nat -> stall k = O.
Proof.
  intros H. assert (Hf : failed k = false).
  { unfold TrainSpec.failed. destruct (Nat.leb_spec early_stopping_avg k); [lia|reflexivity]. }
  destruct k; cbn [TrainSpec.stall]; rewrite Hf; reflexivity.
Qed.

Lemma checkpoint_spec (f k : nat) (st : locals scheduler_t) :
  f <> O ->
  checkpoint f k st
  = (if ((k + 1) mod f =? 0)%nat then emit (Save (checkpoint_path k)) st else st,
     Continue).
Proof.
  intros Hf. unfold checkpoint. destruct f as [|f]; [contradiction|].
  destruct ((k + 1) mod S f =? 0)%nat; reflexivity.
Qed.

Lemma find_seq_first (f : nat -> bool) (a n e : nat) :
  find f (seq a n) = Some e ->
  (a <= e < a + n)%nat /\ f e = true /\ forall j, (a <= j < e)%nat -> f j = false.
Proof.
  revert a. induction n as [|n IH]; intros a; [discriminate|].
  cbn [seq find]. destruct (f a) eqn:Ea.
  - intros [= <-]. repeat split; try lia. exact Ea.
  - intros H. destruct (IH _ H) as (Hr & He & Hj). repeat split; try lia; [exact He|].
    intros j Hjr. destruct (Nat.eq_dec j a) as [->|]; [exact Ea|]. apply Hj. lia.
Qed.

Lemma find_seq_none (f : nat -> bool) (a n : nat) :
  find f (seq a n) = None -> forall j, (a <= j < a + n)%nat -> f j = false.
Proof.
  intros H j Hj. apply (find_none f _ H). apply in_seq. exact Hj.
Qed.

Lemma epochs_done_le : (epochs_done <= epochs)%nat.
Proof.
  unfold TrainSpec.epochs_done.
  destruct (find exhausted (seq 0 epochs)) eqn:E; [|lia].
  apply find_seq_first in E. lia.
Qed.

Lemma epochs_done_early :
  (epochs_done < epochs)%nat <-> exists e, (S e < epochs)%nat /\ exhausted e = true.
Proof.
  unfold TrainSpec.epochs_done.
  destruct (find exhausted (seq 0 epochs)) as [e0|] eqn:E.
  - destruct (find_seq_first _ _ _ _ E) as (Hr & He & Hfirst). split.
    + intros H. exists e0. split; assumption.
    + intros (e & Hlt & Hex).
      destruct (Nat.le_gt_cases e0 e) as [|Hgt]; [lia|].
      rewrite Hfirst in Hex by lia. discriminate.
  - split; [lia|]. intros (e & Hlt & Hex).
    rewrite (find_seq_none _ _ _ E) in Hex by lia. discriminate.
Qed.

Lemma epochs_done_stalled :
  (exists e, (e < epochs_done)%nat /\ exhausted e = true)
  <-> exists e, (e < epochs)%nat /\ exhausted e = true.
Proof.
  pose proof epochs_done_le as Hle. split.
  - intros (e & Hlt & Hex). exists e. split; [lia|exact Hex].
  - intros (e & Hlt & Hex). unfold TrainSpec.epochs_done.
    destruct (find exhausted (seq 0 epochs)) as [e0|] eqn:E.
    + destruct (find_seq_first _ _ _ _ E) as (Hr & He & _).
      exists e0. split; [lia|exact He].
    + rewrite (find_seq_none _ _ _ E) in Hex by lia. discriminate.
Qed.

Lemma failed_warmup (e : nat) : (e < early_stopping_avg)%nat -> failed e = false.
Proof.
  intros H. unfold TrainSpec.failed.
  destruct (Nat.leb_spec early_stopping_avg e); [lia|reflexivity].
Qed.

Lemma stop_logged (stepping : bool) (n : nat) :
  In StopEarly (List.concat (map (epoch_log stepping) (seq 0 n)))
  <-> exists e, (e < n)%nat /\ exhausted e = true.
Proof.
  rewrite in_concat. split.
  - intros (l & Hl & Hin). apply in_map_iff in Hl. destruct Hl as (e & <- & He).
    apply in_seq in He. exists e. split; [lia|].
    unfold TrainSpec.epoch_log in Hin.
    destruct stepping, ((e + 1) mod checkpoint_frequency =? 0)%nat, (exhausted e);
      cbn in Hin; try reflexivity;
      repeat (destruct Hin as [Hin|Hin]; [discriminate|]); contradiction.
  - intros (e & Hlt & Hex). exists (epoch_log stepping e). split.
    + apply in_map, in_seq. lia.
    + unfold TrainSpec.epoch_log. rewrite Hex. rewrite !in_app_iff. cbn. auto.
Qed.

Lemma saves_logged (stepping : bool) (l : list nat) :
  filter is_save (List.concat (map (epoch_log stepping) l))
  = map (fun e => Save (checkpoint_path e))
        (filter (fun e => ((e + 1) mod checkpoint_frequency =? 0)%nat) l).
Proof.
  induction l as [|e l IH]; [reflexivity|].
  cbn [map List.concat filter]. rewrite filter_app, IH.
  unfold TrainSpec.epoch_log.
  destruct stepping, ((e + 1) mod checkpoint_frequency =? 0)%nat, (exhausted e);
    reflexivity.
Qed.

Lemma steps_logged (l : list nat) :
  filter is_step (List.concat (map (epoch_log true) l))
  = map (fun e => SchedulerStep (train_pass world e)) l.
Proof.
  induction l as [|e l IH]; [reflexivity|].
  cbn [map List.concat filter]. rewrite filter_app, IH.
  unfold TrainSpec.epoch_log.
  destruct ((e + 1) mod checkpoint_frequency =? 0)%nat, (exhausted e);
    reflexivity.
Qed.

Lemma step_follows_passes (n e : nat) :
  (e < n)%nat ->
  exists before after,
    List.concat (map (epoch_log true) (seq 0 n))
    = before
      ++ [EpochTrain e; EpochEval e;
          Report (e + 1) epochs (np.round (train_pass world e) 10)
                 (np.round (eval_pass world e) 10);
          SchedulerStep (train_pass world e)]
      ++ after.
Proof.
  intros Hlt. replace n with (e + S (n - S e))%nat by lia.
  rewrite seq_app, map_app, concat_app. cbn [seq map List.concat Nat.add].
  exists (List.concat (map (epoch_log true) (seq 0 e))).
  exists (((if ((e + 1) mod checkpoint_frequency =? 0)%nat
            then [Save (checkpoint_path e)] else [])
           ++ (if exhausted e then [StopEarly] else []))
          ++ List.concat (map (epoch_log true) (seq (S e) (n - S e)))).
  unfold TrainSpec.epoch_log at 2. rewrite <- !app_assoc. reflexivity.
Qed.

End TrainFacts.

Section TrainRuns.

Variable scheduler_t : Type.
Variable scheduler_step : scheduler_t -> Q -> scheduler_t.
Variable world : passes.
Variable epochs : nat.
Variable checkpoint_frequency : nat.
Variable early_stopping_avg : nat.
Variable early_stopping_precision : Z.
Variable early_stopping_epochs : nat.

Hypothesis frequency_positive : checkpoint_frequency <> O.
Hypothesis avg_positive : early_stopping_avg <> O.

Local Abbreviation body := (body scheduler_step world epochs checkpoint_frequency
                       early_stopping_avg early_stopping_precision
                       early_stopping_epochs).
Local Abbreviation loop := (loop scheduler_step world epochs checkpoint_frequency
                       early_stopping_avg early_stopping_precision
                       early_stopping_epochs).
Local Abbreviation train := (train scheduler_step world epochs checkpoint_frequency
                       early_stopping_avg early_stopping_precision
                       early_stopping_epochs).
Local Abbreviation state_after := (state_after scheduler_t scheduler_step world epochs checkpoint_frequency
                           early_stopping_avg early_stopping_precision
                           early_stopping_epochs).
Local Abbreviation exhausted := (exhausted world early_stopping_avg early_stopping_precision
                         early_stopping_epochs).
Local Abbreviation stall := (stall world early_stopping_avg early_stopping_precision).
Local Abbreviation failed := (failed world early_stopping_avg early_stopping_precision).
Local Abbreviation running_min := (running_min world early_stopping_avg early_stopping_precision).
Local Abbreviation threshold := (threshold world early_stopping_avg early_stopping_precision).
Local Abbreviation epoch_log := (epoch_log world epochs checkpoint_frequency
  early_stopping_avg early_stopping_precision early_stopping_epochs).
Local Abbreviation recent_mean := (recent_mean world early_stopping_avg early_stopping_precision).
Local Abbreviation epochs_done := (epochs_done world epochs early_stopping_avg
                           early_stopping_precision early_stopping_epochs).

(** One turn of the loop takes the state after [k] epochs to the state after
    [k + 1] epochs, and leaves the loop exactly when the stall has lasted
    too long. *)
Lemma threshold_is_running_min (e : nat) :
  (early_stopping_avg <= S e)%nat -> threshold e = running_min (S e).
Proof using All.
  intros H. unfold TrainSpec.threshold.
  destruct (Nat.ltb_spec e early_stopping_avg) as [Hlt|]; [|reflexivity].
  assert (S e = early_stopping_avg) as -> by lia.
  rewrite running_min_start. f_equal. lia.
Qed.

Lemma early_stopping_spec (k : nat) (st : locals scheduler_t) :
  loss_val st = map (eval_pass world) (seq 0 (S k)) ->
  min_val_loss st = match k with O => None | S e => Some (threshold e) end ->
  no_decrease_epochs st = match k with O => None | S e => Some (stall e) end ->
  early_stopping early_stopping_avg early_stopping_precision early_stopping_epochs k st
  = let st' : locals scheduler_t := set_stopping (threshold k) (stall k) st in
    if exhausted k then (emit StopEarly st', Break) else (st', Continue).
Proof using All.
  intros Hval Hmin Hnd. unfold early_stopping.
  assert (Hexit : forall st' : locals scheduler_t,
            no_decrease_epochs st' = Some (stall k) ->
            match no_decrease_epochs st' with
            | Some n => if (early_stopping_epochs <? n)%nat
                        then (emit StopEarly st', Break) else (st', Continue)
            | None => (st', Throw (UnboundLocalError "no_decrease_epochs"))
            end
            = if exhausted k then (emit StopEarly st', Break) else (st', Continue)).
  { intros st' ->. reflexivity. }
  destruct (Nat.ltb_spec k early_stopping_avg) as [Hlt|Hge].
  - (* one of the first epochs *)
    assert (Hth : threshold k
                  = np.round (np.mean (loss_val st)) early_stopping_precision).
    { unfold TrainSpec.threshold, TrainSpec.recent_mean, TrainSpec.val_history.
      destruct (Nat.ltb_spec k early_stopping_avg); [|lia].
      rewrite slice_last_short, Hval; [reflexivity|].
      rewrite length_map, length_seq. lia. }
    rewrite <- Hth, <- (stall_warmup world early_stopping_avg early_stopping_precision k Hlt). apply Hexit. reflexivity.
  - (* a later epoch *)
    destruct k as [|e]; [lia|]. rewrite Hmin, Hnd, Hval.
    fold (val_history world (S e)). fold (recent_mean (S e)).
    rewrite (threshold_is_running_min e Hge).
    assert (Hfail : failed (S e) = Qle_bool (running_min (S e)) (recent_mean (S e))).
    { unfold TrainSpec.failed. destruct (Nat.leb_spec early_stopping_avg (S e)); [|lia].
      reflexivity. }
    assert (Hthr : threshold (S e) = lower (running_min (S e)) (recent_mean (S e))).
    { rewrite (threshold_is_running_min (S e)) by lia. apply running_min_step, Hge. }
    assert (Hst : stall (S e) = if failed (S e) then S (stall e) else O) by reflexivity.
    rewrite Hfail in Hst. rewrite Hthr. unfold lower.
    destruct (Qle_bool (running_min (S e)) (recent_mean (S e))).
    + rewrite Nat.add_1_r, <- Hst. apply Hexit. reflexivity.
    + rewrite <- Hst. apply Hexit. reflexivity.
Qed.

(** The passes and the scheduler step of epoch [k]. *)
Lemma passes_state_after (sched : option scheduler_t) (k : nat) :
  schedule scheduler_step (passes_of_epoch world epochs k (state_after sched k))
  = mkLocals
      (map (train_pass world) (seq 0 (S k)))
      (map (eval_pass world) (seq 0 (S k)))
      (option_map
         (fun s => fold_left scheduler_step (map (train_pass world) (seq 0 (S k))) s)
         sched)
      (match k with O => None | S e => Some (threshold e) end)
      (match k with O => None | S e => Some (stall e) end)
      (List.concat (map (epoch_log (is_some sched)) (seq 0 k))
       ++ [EpochTrain k; EpochEval k;
           Report (k + 1) epochs (np.round (train_pass world k) 10)
                  (np.round (eval_pass world k) 10)]
       ++ (if is_some sched then [SchedulerStep (train_pass world k)] else [])).
Proof using All.
  lazy beta iota zeta delta
    [schedule passes_of_epoch emit TrainSpec.state_after
     loss_train loss_val scheduler min_val_loss no_decrease_epochs log].
  rewrite !last_last, !map_seq_snoc.
  destruct sched as [s|]; cbn [option_map is_some].
  - rewrite <- map_seq_snoc, fold_left_app. cbn [fold_left].
    rewrite map_seq_snoc, <- !app_assoc. reflexivity.
  - rewrite <- !app_assoc. reflexivity.
Qed.

Lemma body_state_after (sched : option scheduler_t) (k : nat) :
  body k (state_after sched k)
  = (state_after sched (S k), if exhausted k then Break else Continue).
Proof using All.
  assert (Hlog : List.concat (map (epoch_log (is_some sched)) (seq 0 (S k)))
                 = List.concat (map (epoch_log (is_some sched)) (seq 0 k))
                   ++ epoch_log (is_some sched) k).
  { rewrite seq_S, map_app, concat_app. cbn [map List.concat Nat.add].
    rewrite app_nil_r. reflexivity. }
  unfold Main.body. rewrite passes_state_after.
  rewrite checkpoint_spec by exact frequency_positive.
  unfold TrainSpec.state_after. rewrite Hlog. clear Hlog.
  generalize (List.concat (map (epoch_log (is_some sched)) (seq 0 k))). intros past.
  unfold TrainSpec.epoch_log.
  destruct ((k + 1) mod checkpoint_frequency =? 0)%nat;
    (rewrite early_stopping_spec; [|reflexivity..]);
    cbv zeta; destruct (exhausted k);
    lazy beta iota zeta delta
      [emit set_stopping loss_train loss_val scheduler min_val_loss
       no_decrease_epochs log];
    rewrite <- ?app_assoc; cbn [app]; rewrite ?app_nil_r;
    reflexivity.
Qed.

Lemma state_after_start (sched : option scheduler_t) :
  state_after sched 0 = start sched.
Proof using All. destruct sched; reflexivity. Qed.

Lemma loop_state_after (sched : option scheduler_t) (m k : nat) :
  loop (seq k m) (state_after sched k)
  = (state_after sched
       (match find exhausted (seq k m) with Some e => S e | None => k + m end),
     None).
Proof using All.
  revert k. induction m as [|m IH]; intros k.
  - cbn. rewrite Nat.add_0_r. reflexivity.
  - cbn [seq Main.loop find]. rewrite body_state_after.
    destruct (exhausted k); [reflexivity|].
    rewrite IH. rewrite Nat.add_succ_r. reflexivity.
Qed.

(** [train] returns, and its local variables at the end are those after
    [epochs_done] epochs, with the final checkpoint written last. *)
Lemma train_state_after (sched : option scheduler_t) :
  train sched
  = (emit (Save "weights/ViT_model_final.pth") (state_after sched epochs_done),
     Ok (map (train_pass world) (seq 0 epochs_done),
         map (eval_pass world) (seq 0 epochs_done))).
Proof using All.
  unfold Main.train. rewrite <- state_after_start, loop_state_after.
  reflexivity.
Qed.

End TrainRuns.

Section TrainRaises.

Variable scheduler_t : Type.
Variable scheduler_step : scheduler_t -> Q -> scheduler_t.
Variable world : passes.
Variable epochs : nat.
Variable checkpoint_frequency : nat.
Variable early_stopping_avg : nat.
Variable early_stopping_precision : Z.
Variable early_stopping_epochs : nat.

Local Abbreviation train := (train scheduler_step world epochs checkpoint_frequency
                       early_stopping_avg early_stopping_precision
                       early_stopping_epochs).

(** With a zero checkpoint frequency the first epoch stops at
    [(epoch + 1) % checkpoint_frequency]. *)
Lemma train_zero_frequency (sched : option scheduler_t) :
  epochs <> O -> checkpoint_frequency = O ->
  exists st,
    train sched = (st, Raise ZeroDivisionError)
    /\ epochs_run st = 1%nat
    /\ filter is_save (log st) = [].
Proof.
  intros He Hf. unfold Main.train. destruct epochs as [|n]; [contradiction|].
  cbn [seq Main.loop]. unfold Main.body, checkpoint. rewrite Hf.
  destruct sched; (eexists; split; [reflexivity|]; split; reflexivity).
Qed.

(** With [early_stopping_avg = 0] the first epoch reads [min_val_loss]
    before any assignment to it. *)
Lemma train_zero_avg (sched : option scheduler_t) :
  epochs <> O -> checkpoint_frequency <> O -> early_stopping_avg = O ->
  exists st,
    train sched = (st, Raise (UnboundLocalError "min_val_loss"))
    /\ epochs_run st = 1%nat
    /\ filter is_save (log st)
       = if (1 mod checkpoint_frequency =? 0)%nat
         then [Save (checkpoint_path 0)] else [].
Proof.
  intros He Hf Ha. unfold Main.train. destruct epochs as [|n]; [contradiction|].
  cbn [seq Main.loop]. unfold Main.body.
  rewrite checkpoint_spec by exact Hf. rewrite Ha.
  change (0 + 1)%nat with 1%nat.
  destruct sched, (1 mod checkpoint_frequency =? 0)%nat;
    (eexists; split; [reflexivity|]; split; reflexivity).
Qed.

End TrainRaises.

Section TrainClaims.

Variable scheduler_t : Type.
Variable scheduler_step : scheduler_t -> Q -> scheduler_t.
Variable world : passes.

Lemma epochs_run_state_after (epochs f avg : nat) (prec : Z) (E : nat)
    (sched : option scheduler_t) (k : nat) (ev : event) :
  epochs_run (emit ev (state_after scheduler_t scheduler_step world epochs f avg prec E
                         sched k)) = k.
Proof. unfold epochs_run. cbn. rewrite length_map, length_seq. reflexivity. Qed.

(** C4, as amended: when [checkpoint_frequency] and [early_stopping_avg]
    are not zero, [train] returns, and it has run fewer epochs than
    configured if and only if, at some epoch before the last configured
    one, the rounded mean of the last [early_stopping_avg] validation losses
    has failed to drop below the running minimum for more than
    [early_stopping_epochs] consecutive epochs; "Stopping early" is printed
    if and only if that happens at some configured epoch, the last one
    included; none of the first [early_stopping_avg] epochs counts as a
    failure. *)
Theorem early_stopping_rule (epochs checkpoint_frequency early_stopping_avg : nat)
    (early_stopping_precision : Z) (early_stopping_epochs : nat)
    (sched : option scheduler_t) :
  checkpoint_frequency <> O ->
  early_stopping_avg <> O ->
  let run := train scheduler_step world epochs checkpoint_frequency early_stopping_avg
                   early_stopping_precision early_stopping_epochs sched in
  let stalled := fun e =>
    exhausted world early_stopping_avg early_stopping_precision
              early_stopping_epochs e = true in
  is_ok (snd run) = true
  /\ ((epochs_run (fst run) < epochs)%nat
      <-> exists e, (S e < epochs)%nat /\ stalled e)
  /\ (In StopEarly (log (fst run)) <-> exists e, (e < epochs)%nat /\ stalled e)
  /\ (forall e, (e < early_stopping_avg)%nat ->
        failed world early_stopping_avg early_stopping_precision e = false).
Proof.
  intros Hf Ha run stalled. subst run stalled.
  rewrite (train_state_after scheduler_t scheduler_step world epochs checkpoint_frequency
             early_stopping_avg early_stopping_precision early_stopping_epochs Hf Ha).
  cbn [fst snd is_ok]. rewrite epochs_run_state_after.
  split; [reflexivity|]. split; [apply epochs_done_early|]. split.
  - cbn [emit log TrainSpec.state_after]. rewrite in_app_iff, stop_logged.
    rewrite epochs_done_stalled. split; [|auto].
    intros [H|[H|[]]]; [exact H|discriminate].
  - intros e He. apply failed_warmup, He.
Qed.

Lemma train_checkpoints (epochs checkpoint_frequency early_stopping_avg : nat)
    (early_stopping_precision : Z) (early_stopping_epochs : nat)
    (sched : option scheduler_t) :
  let run := train scheduler_step world epochs checkpoint_frequency early_stopping_avg
                   early_stopping_precision early_stopping_epochs sched in
  is_ok (snd run)
  = ((epochs =? 0) || negb (checkpoint_frequency =? 0) && negb (early_stopping_avg =? 0))%nat
  /\ (epochs_run (fst run) <= epochs)%nat
  /\ filter is_save (log (fst run))
     = map (fun e => Save (checkpoint_path e))
           (filter (fun e => ((e + 1) mod checkpoint_frequency =? 0)%nat)
                   (seq 0 (epochs_run (fst run))))
       ++ (if is_ok (snd run) then [Save "weights/ViT_model_final.pth"] else []).
Proof.
  intros run. subst run.
  destruct (Nat.eqb_spec epochs 0) as [->|He].
  { cbn [orb]. unfold train. cbn [seq loop fst snd is_ok emit log start epochs_run loss_val List.length filter is_save app map].
    split; [reflexivity|]. split; [apply Nat.le_refl|reflexivity]. }
  destruct (Nat.eqb_spec checkpoint_frequency 0) as [Hf|Hf].
  { destruct (train_zero_frequency scheduler_t scheduler_step world epochs
                checkpoint_frequency early_stopping_avg early_stopping_precision
                early_stopping_epochs sched He Hf) as (st & -> & Hrun & Hsaves).
    cbn [fst snd is_ok orb andb negb]. rewrite Hrun, Hsaves, Hf.
    split; [reflexivity|]. split; [lia|reflexivity]. }
  destruct (Nat.eqb_spec early_stopping_avg 0) as [Ha|Ha].
  { destruct (train_zero_avg scheduler_t scheduler_step world epochs
                checkpoint_frequency early_stopping_avg early_stopping_precision
                early_stopping_epochs sched He Hf Ha) as (st & -> & Hrun & Hsaves).
    cbn [fst snd is_ok orb andb negb]. rewrite Hrun, Hsaves.
    split; [reflexivity|]. split; [lia|]. cbn [seq filter Nat.add].
    destruct (1 mod checkpoint_frequency =? 0)%nat; reflexivity. }
  rewrite (train_state_after scheduler_t scheduler_step world epochs checkpoint_frequency
             early_stopping_avg early_stopping_precision early_stopping_epochs Hf Ha).
  cbn [fst snd is_ok orb andb negb]. rewrite epochs_run_state_after.
  split; [reflexivity|]. split; [apply epochs_done_le|].
  cbn [emit log TrainSpec.state_after]. rewrite filter_app, saves_logged. reflexivity.
Qed.

(** C5: the checkpoints [train] writes are, in order, one for each epoch
    it ran whose 1-based index is a multiple of [checkpoint_frequency],
    under the name "weights/ViT_model_" followed by that index padded with
    zeros to three digits, and then, whenever the loop is left without an
    exception (all epochs done, or stopped early),
    "weights/ViT_model_final.pth".  The loop is left by an exception exactly
    when there is an epoch to run and [checkpoint_frequency] or
    [early_stopping_avg] is zero. *)
Theorem checkpoints_saved (epochs checkpoint_frequency early_stopping_avg : nat)
    (early_stopping_precision : Z) (early_stopping_epochs : nat)
    (sched : option scheduler_t) :
  let run := train scheduler_step world epochs checkpoint_frequency early_stopping_avg
                   early_stopping_precision early_stopping_epochs sched in
  is_ok (snd run)
  = ((epochs =? 0) || negb (checkpoint_frequency =? 0) && negb (early_stopping_avg =? 0))%nat
  /\ (epochs_run (fst run) <= epochs)%nat
  /\ filter is_save (log (fst run))
     = map (fun e => Save (checkpoint_path e))
           (filter (fun e => ((e + 1) mod checkpoint_frequency =? 0)%nat)
                   (seq 0 (epochs_run (fst run))))
       ++ (if is_ok (snd run) then [Save "weights/ViT_model_final.pth"] else [])
  /\ (forall e, checkpoint_path e
                = ("weights/ViT_model_" ++ zfill 3 (str (e + 1)))%string).
Proof.
  intros run.
  destruct (train_checkpoints epochs checkpoint_frequency early_stopping_avg
              early_stopping_precision early_stopping_epochs sched)
    as (Hok & Hrun & Hsaves).
  repeat split; assumption.
Qed.

(** The names of the periodic checkpoints. *)
Example checkpoint_path_5 : checkpoint_path 4 = "weights/ViT_model_005"%string.
Proof. reflexivity. Qed.

Example checkpoint_path_100 : checkpoint_path 99 = "weights/ViT_model_100"%string.
Proof. reflexivity. Qed.

Example checkpoint_path_1000 : checkpoint_path 999 = "weights/ViT_model_1000"%string.
Proof. reflexivity. Qed.

End TrainClaims.

(** A run that stops early, and the rule that stops it. *)
Lemma early_stopping_rule_witness :
  let run := train Examples.no_step Examples.flat 5 2 1 5 1 None in
  let stalled := fun e => exhausted Examples.flat 1 5 1 e = true in
  is_ok (snd run) = true
  /\ ((epochs_run (fst run) < 5)%nat <-> exists e, (S e < 5)%nat /\ stalled e)
  /\ (In StopEarly (log (fst run)) <-> exists e, (e < 5)%nat /\ stalled e)
  /\ (forall e, (e < 1)%nat -> failed Examples.flat 1 5 e = false).
Proof.
  apply (early_stopping_rule unit Examples.no_step Examples.flat 5 2 1 5 1 None);
    discriminate.
Defined.

(** C4 as stated fails when the stall is complete only at the last
    configured epoch: with two epochs, a window of one and no tolerated
    failure, constant losses exhaust the rule at the second epoch; "Stopping
    early" is printed, and both epochs have run. *)
Lemma early_stop_at_the_last_epoch :
  let run := train Examples.no_step Examples.flat 2 1 1 5 0 None in
  let stalled := fun e => exhausted Examples.flat 1 5 0 e = true in
  epochs_run (fst run) = 2%nat
  /\ In StopEarly (log (fst run))
  /\ stalled 1%nat
  /\ ~ ((epochs_run (fst run) < 2)%nat <-> exists e, (e < 2)%nat /\ stalled e).
Proof.
  assert (Hrun : epochs_run (fst (train Examples.no_step Examples.flat 2 1 1 5 0 None))
                 = 2%nat) by (vm_compute; reflexivity).
  assert (Hstall : exhausted Examples.flat 1 5 0 1 = true) by (vm_compute; reflexivity).
  cbv zeta. split; [exact Hrun|]. split; [|split; [exact Hstall|]].
  - vm_compute. tauto.
  - rewrite Hrun. intros [_ H].
    assert (Hlt : (2 < 2)%nat) by (apply H; exists 1%nat; split; [lia|exact Hstall]).
    lia.
Qed.



(* ================================================================== *)
(** * The scheduler and main *)

Section SchedulerFacts.

Lemma main_scheduler_configured : configured main_scheduler.
Proof. repeat split. Qed.

Lemma step_configured (s : ReduceLROnPlateau.t) (m : Q) :
  configured s -> configured (ReduceLROnPlateau.step s m).
Proof.
  intros (Hf & Hp & Ht & Hc & Hm & He & Hcc). unfold ReduceLROnPlateau.step.
  rewrite Hcc. change (0 <? 0)%nat with false. cbv iota.
  match goal with
  | |- context [if (?a <? ?b)%nat then _ else _] => destruct (a <? b)%nat
  end; repeat split; assumption.
Qed.

Lemma steps_configured (losses : list Q) (s : ReduceLROnPlateau.t) :
  configured s -> configured (fold_left ReduceLROnPlateau.step losses s).
Proof.
  revert s. induction losses as [|m losses IH]; intros s Hs; [exact Hs|].
  cbn [fold_left]. apply IH, step_configured, Hs.
Qed.

(** The step that ends a plateau (the 21st in a row without improvement)
    halves the learning rate, as long as half of it is more than [eps]. *)
Lemma step_halves (s : ReduceLROnPlateau.t) (m : Q) :
  configured s ->
  ReduceLROnPlateau.is_better s m = false ->
  ReduceLROnPlateau.num_bad_epochs s = 20%nat ->
  (1 # 50000000 < ReduceLROnPlateau.lr s)%Q ->
  ReduceLROnPlateau.lr (ReduceLROnPlateau.step s m)
  = (ReduceLROnPlateau.lr s * (1 # 2))%Q.
Proof.
  intros (Hf & Hp & Ht & Hc & Hm & He & Hcc) Hb Hn Hlr.
  unfold ReduceLROnPlateau.step. rewrite Hb, Hcc, Hn, Hp.
  change (0 <? 0)%nat with false. cbv iota.
  change (20 <? 21)%nat with true. cbv iota. cbn [ReduceLROnPlateau.lr].
  unfold ReduceLROnPlateau.reduce_lr, ReduceLROnPlateau.Qmax. rewrite Hf, Hm, He.
  destruct (Qle_bool (ReduceLROnPlateau.lr s * (1 # 2)) 0) eqn:E1.
  { apply Qle_bool_iff in E1. exfalso. Lqa.lra. }
  destruct (Qle_bool (ReduceLROnPlateau.lr s - ReduceLROnPlateau.lr s * (1 # 2))
                     (1 # 100000000)) eqn:E2; [|reflexivity].
  apply Qle_bool_iff in E2. exfalso. Lqa.lra.
Qed.

(** A step that does not end a plateau leaves the learning rate alone. *)
Lemma step_keeps (s : ReduceLROnPlateau.t) (m : Q) :
  configured s ->
  (ReduceLROnPlateau.is_better s m = true
   \/ (ReduceLROnPlateau.num_bad_epochs s < 20)%nat) ->
  ReduceLROnPlateau.lr (ReduceLROnPlateau.step s m) = ReduceLROnPlateau.lr s.
Proof.
  intros (Hf & Hp & Ht & Hc & Hm & He & Hcc) H.
  unfold ReduceLROnPlateau.step. rewrite Hcc, Hp.
  change (0 <? 0)%nat with false. cbv iota.
  destruct (ReduceLROnPlateau.is_better s m).
  - change (20 <? 0)%nat with false. reflexivity.
  - destruct H as [|H]; [discriminate|].
    destruct (Nat.ltb_spec 20 (S (ReduceLROnPlateau.num_bad_epochs s))); [lia|].
    reflexivity.
Qed.

End SchedulerFacts.

Section MainFacts.

Variable world : passes.

(** The run [main] starts goes through [epochs_done] of its 1000 epochs. *)
Lemma main_train_run :
  main_train world
  = (emit (Save "weights/ViT_model_final.pth")
          (state_after _ ReduceLROnPlateau.step world 1000 100 10 5 10
                       (Some main_scheduler) (epochs_done world 1000 10 5 10)),
     Ok (map (train_pass world) (seq 0 (epochs_done world 1000 10 5 10)),
         map (eval_pass world) (seq 0 (epochs_done world 1000 10 5 10)))).
Proof.
  apply (train_state_after _ ReduceLROnPlateau.step world 1000
           100 10 5 10 ltac:(discriminate) ltac:(discriminate)
           (Some main_scheduler)).
Qed.

(** C6: in the run [main] starts, the scheduler is a ReduceLROnPlateau
    with factor 0.5, patience 20 and threshold 1e-5; it is stepped once per
    epoch, in order, with the training loss of that epoch, right after the
    training pass, the validation pass and the report of that epoch; its
    state at the end is the result of those steps; and in such a scheduler
    the step that makes the 21st in a row without improvement halves the
    learning rate (as long as half of it exceeds [eps]). *)
Theorem scheduler_stepped_after_each_epoch :
  let run := main_train world in
  let n := epochs_run (fst run) in
  configured main_scheduler
  /\ is_ok (snd run) = true
  /\ filter is_step (log (fst run))
     = map (fun e => SchedulerStep (train_pass world e)) (seq 0 n)
  /\ (forall e, (e < n)%nat ->
        exists before after,
          log (fst run)
          = before
            ++ [EpochTrain e; EpochEval e;
                Report (e + 1) 1000 (np.round (train_pass world e) 10)
                       (np.round (eval_pass world e) 10);
                SchedulerStep (train_pass world e)]
            ++ after)
  /\ scheduler (fst run)
     = Some (fold_left ReduceLROnPlateau.step (map (train_pass world) (seq 0 n))
               main_scheduler)
  /\ (forall (losses : list Q) (m : Q),
        let s := fold_left ReduceLROnPlateau.step losses main_scheduler in
        ReduceLROnPlateau.is_better s m = false ->
        ReduceLROnPlateau.num_bad_epochs s = 20%nat ->
        (1 # 50000000 < ReduceLROnPlateau.lr s)%Q ->
        ReduceLROnPlateau.lr (ReduceLROnPlateau.step s m)
        = (ReduceLROnPlateau.lr s * (1 # 2))%Q).
Proof.
  intros run n. subst n run. rewrite main_train_run.
  cbn [fst snd is_ok]. rewrite epochs_run_state_after.
  split; [exact main_scheduler_configured|]. split; [reflexivity|].
  cbn [emit log scheduler TrainSpec.state_after option_map is_some].
  split; [|split; [|split]].
  - rewrite filter_app, steps_logged. cbn [filter is_step]. apply app_nil_r.
  - intros e He.
    destruct (step_follows_passes world 1000 100 10 5 10 _ e He)
      as (before & after & ->).
    exists before, (after ++ [Save "weights/ViT_model_final.pth"]).
    rewrite <- !app_assoc. reflexivity.
  - reflexivity.
  - intros losses m. cbv zeta. intros Hb Hn Hlr.
    apply step_halves;
      [apply steps_configured, main_scheduler_configured|assumption..].
Qed.

Lemma store_same_but_epochs (a b : Namespace) (o : cli_option) :
  same_but_epochs a b -> same_but_epochs (store a o) (store b o).
Proof.
  intros (H1 & H2 & H3 & H4 & H5 & H6). destruct o; repeat split; assumption.
Qed.

Lemma parse_same_but_epochs (argv : list cli_option) (a b : Namespace) :
  same_but_epochs a b ->
  same_but_epochs (fold_left store argv a) (fold_left store argv b).
Proof.
  revert a b. induction argv as [|o argv IH]; intros a b H; [exact H|].
  cbn [fold_left]. apply IH, store_same_but_epochs, H.
Qed.

Lemma main_same_but_epochs (a b : Namespace) :
  same_but_epochs a b -> main world a = main world b.
Proof.
  intros (H1 & _ & _ & _ & _ & H6). unfold main. rewrite H1, H6. reflexivity.
Qed.

(** C8: [main] does the same whatever [--epochs] says, wherever it stands
    on the command line: the call of [train] takes its number of epochs
    from [config], 1000, and the run goes through 1000 epochs unless it
    stops early. *)
Theorem epochs_argument_is_ignored :
  (forall (before after : list cli_option) (n : Z),
      main world (parse_args (before ++ opt_epochs n :: after))
      = main world (parse_args (before ++ after)))
  /\ (forall (args : Namespace) (n : Z),
        main world (store args (opt_epochs n)) = main world args)
  /\ main_train world
     = train ReduceLROnPlateau.step world 1000 100 10 5 10 (Some main_scheduler)
  /\ (let st := fst (main_train world) in
      epochs_run st = 1000%nat
      \/ ((epochs_run st < 1000)%nat /\ In StopEarly (log st)))
  /\ (forall args : Namespace,
        fst (main world args)
        = (if args_show_data args then [ShowData] else [])
          ++ (if args_train args
              then [LoadData; Instantiate; Summary]
                   ++ log (fst (main_train world)) ++ [PlotLoss]
              else [])).
Proof.
  assert (Hset : forall a n, same_but_epochs (store a (opt_epochs n)) a).
  { intros a n. repeat split. }
  split; [|split; [|split; [|split]]].
  - intros before after n. apply main_same_but_epochs. unfold parse_args.
    rewrite !fold_left_app. cbn [fold_left]. apply parse_same_but_epochs, Hset.
  - intros args n. apply main_same_but_epochs, Hset.
  - reflexivity.
  - rewrite main_train_run. cbn [fst]. rewrite epochs_run_state_after.
    pose proof (epochs_done_le world 1000 10 5 10) as Hle.
    destruct (Nat.eq_dec (epochs_done world 1000 10 5 10) 1000) as [|Hne];
      [left; assumption|right].
    split; [lia|].
    assert (Hlt : (epochs_done world 1000 10 5 10 < 1000)%nat) by lia.
    apply (epochs_done_early world 1000 10 5 10) in Hlt.
    destruct Hlt as (e & He & Hex).
    cbn [emit log TrainSpec.state_after]. apply in_or_app. left.
    apply stop_logged, epochs_done_stalled. exists e. split; [lia|exact Hex].
  - intros args. unfold main. rewrite main_train_run.
    generalize (emit (Save "weights/ViT_model_final.pth")
                  (state_after _ ReduceLROnPlateau.step world 1000 100 10 5 10
                     (Some main_scheduler) (epochs_done world 1000 10 5 10))).
    intros st.
    destruct (args_show_data args), (args_train args); cbn [fst snd app];
      rewrite ?app_nil_r, <- ?app_assoc; reflexivity.
Qed.

End MainFacts.

(** The scheduler of [main] after a first loss of 1 and twenty more steps
    with the same loss: the next such step halves the learning rate. *)
Lemma scheduler_halves_on_plateau :
  let s := fold_left ReduceLROnPlateau.step (repeat 1%Q 21) main_scheduler in
  ReduceLROnPlateau.lr (ReduceLROnPlateau.step s 1%Q)
  = (ReduceLROnPlateau.lr s * (1 # 2))%Q.
Proof.
  apply (proj2 (proj2 (proj2 (proj2 (proj2
           (scheduler_stepped_after_each_epoch Examples.flat)))))
           (repeat 1%Q 21) 1%Q);
    vm_compute; reflexivity.
Defined.


(* ================================================================== *)
(** * More about sums and broadcasting *)

Section SumFacts.

Local Open Scope R_scope.

Lemma Rsum_plus (n : nat) (f g : nat -> R) :
  Rsum n (fun i => f i + g i) = Rsum n f + Rsum n g.
Proof. induction n as [|n IH]; cbn [Rsum]; [ring|]. rewrite IH. ring. Qed.

Lemma Rsum_minus (n : nat) (f g : nat -> R) :
  Rsum n (fun i => f i - g i) = Rsum n f - Rsum n g.
Proof. induction n as [|n IH]; cbn [Rsum]; [ring|]. rewrite IH. ring. Qed.

Lemma Rsum_zero_terms (n : nat) (f : nat -> R) :
  (forall i, (i < n)%nat -> 0 <= f i) -> Rsum n f = 0 ->
  forall i, (i < n)%nat -> f i = 0.
Proof.
  induction n as [|n IH]; intros Hf Hs i Hi; [lia|].
  cbn [Rsum] in Hs.
  assert (H1 : 0 <= Rsum n f) by (apply Rsum_nonneg; intros; apply Hf; lia).
  assert (H2 : 0 <= f n) by (apply Hf; lia).
  destruct (Nat.eq_dec i n) as [->|Hne]; [lra|].
  apply IH; [intros; apply Hf; lia|lra|lia].
Qed.

Lemma sum_over_plus (s : list nat) (f g : list nat -> R) :
  sum_over s (fun idx => f idx + g idx) = sum_over s f + sum_over s g.
Proof.
  revert f g. induction s as [|n s IH]; intros f g; cbn [sum_over]; [reflexivity|].
  rewrite <- Rsum_plus. apply Rsum_ext. intros i _. apply IH.
Qed.

Lemma sum_over_nonneg (s : list nat) (f : list nat -> R) :
  (forall idx, valid s idx -> 0 <= f idx) -> 0 <= sum_over s f.
Proof.
  revert f. induction s as [|n s IH]; intros f Hf; cbn [sum_over].
  - apply Hf. constructor.
  - apply Rsum_nonneg. intros i Hi. apply IH. intros idx Hv. apply Hf.
    constructor; assumption.
Qed.

Lemma sum_over_zero_terms (s : list nat) (f : list nat -> R) :
  (forall idx, valid s idx -> 0 <= f idx) -> sum_over s f = 0 ->
  forall idx, valid s idx -> f idx = 0.
Proof.
  revert f. induction s as [|n s IH]; intros f Hf Hs idx Hv.
  - inversion Hv; subst. exact Hs.
  - inversion Hv as [|i d idx' s' Hi Hv']; subst. cbn [sum_over] in Hs.
    apply (IH (fun idx => f (i :: idx))); [| |exact Hv'].
    + intros idx0 Hv0. apply Hf. constructor; assumption.
    + apply (Rsum_zero_terms n (fun i => sum_over s (fun idx => f (i :: idx))));
        [|exact Hs|exact Hi].
      intros j Hj. apply sum_over_nonneg. intros idx0 Hv0. apply Hf.
      constructor; assumption.
Qed.


Lemma broadcast_rev_sym (a b : list nat) : broadcast_rev a b = broadcast_rev b a.
Proof.
  revert b. induction a as [|x a IH]; intros [|y b]; try reflexivity.
  cbn [broadcast_rev]. rewrite IH. destruct (broadcast_rev b a) as [s|]; [|reflexivity].
  rewrite (Nat.eqb_sym y x).
  destruct (Nat.eqb_spec x y) as [->|Hne]; [reflexivity|].
  destruct (Nat.eqb_spec x 1) as [->|Hx], (Nat.eqb_spec y 1) as [->|Hy];
    try reflexivity; contradiction.
Qed.

Lemma broadcast_shapes_sym (a b : list nat) : broadcast_shapes a b = broadcast_shapes b a.
Proof. unfold broadcast_shapes. rewrite broadcast_rev_sym. reflexivity. Qed.

Lemma ewise_comm (op : R -> R -> R) (x y : Tensor) :
  (forall a b, op a b = op b a) -> rsame (ewise op x y) (ewise op y x).
Proof.
  intros Hop. unfold ewise. rewrite (broadcast_shapes_sym (shape y) (shape x)).
  destruct (broadcast_shapes (shape x) (shape y)); cbn; [|reflexivity].
  split; [reflexivity|]. intros idx. cbn. apply Hop.
Qed.

Lemma sum_last_tsame (x y : Tensor) : tsame x y -> tsame (sum_last x) (sum_last y).
Proof.
  destruct x as [sx fx], y as [sy fy]. unfold tsame, sum_last. cbn [shape elem].
  intros [<- He]. destruct sx as [|n s]; [split; [reflexivity|exact He]|].
  split; [reflexivity|]. cbn [elem]. intros idx. apply Rsum_ext. intros i _. apply He.
Qed.

Lemma rsame_trans (a b c : result Tensor) : rsame a b -> rsame b c -> rsame a c.
Proof.
  destruct a as [x|e], b as [y|e'], c as [z|e'']; cbn; try contradiction;
    try congruence.
  intros [H1 H2] [H3 H4]. split; [congruence|]. intros idx. rewrite H2. apply H4.
Qed.

End SumFacts.

(* ================================================================== *)
(** * More about IoULoss *)

Section IoULossMore.

Local Open Scope R_scope.

Lemma op_sum_tsame (x y : Tensor) : tsame x y -> tsame (IoULoss.op_sum x) (IoULoss.op_sum y).
Proof. intros H. apply sum_last_tsame, sum_last_tsame, H. Qed.

(** X1: the loss does not tell its two arguments apart:
    [forward(a, b)] and [forward(b, a)] are the same number, or raise the
    same exception, for all tensors. *)
Theorem IoULoss_symmetric (y_pred y_true : Tensor) :
  IoULoss.forward y_pred y_true = IoULoss.forward y_true y_pred.
Proof.
  unfold IoULoss.forward.
  pose proof (ewise_comm Rmult y_true y_pred Rmult_comm) as Hprod. fold tmul in Hprod.
  destruct (tmul y_true y_pred) as [prod|e], (tmul y_pred y_true) as [prod'|e'];
    cbn in Hprod; try contradiction; [|cbn [bind]; congruence].
  cbn [bind].
  pose proof (ewise_comm Rplus (IoULoss.op_sum (tpow y_true 2))
                (IoULoss.op_sum (tpow y_pred 2)) Rplus_comm) as Hsum.
  fold tadd in Hsum.
  destruct (tadd (IoULoss.op_sum (tpow y_true 2)) (IoULoss.op_sum (tpow y_pred 2)))
    as [s|e],
    (tadd (IoULoss.op_sum (tpow y_pred 2)) (IoULoss.op_sum (tpow y_true 2)))
    as [s'|e']; cbn in Hsum; try contradiction; [|cbn [bind]; congruence].
  cbn [bind].
  pose proof (op_sum_tsame _ _ Hprod) as Hinter.
  pose proof (ewise_tsame Rminus _ _ _ _ Hsum Hinter) as Hun. fold tsub in Hun.
  destruct (tsub s (IoULoss.op_sum prod)) as [u|e],
           (tsub s' (IoULoss.op_sum prod')) as [u'|e'];
    cbn in Hun; try contradiction; [|cbn [bind]; congruence].
  cbn [bind].
  pose proof (ewise_tsame Rdiv _ _ _ _
                (tmap_tsame (fun v => v + IoULoss.EPSILON) _ _ Hinter)
                (tmap_tsame (fun v => v + IoULoss.EPSILON) _ _ Hun)) as Hiou.
  fold tdiv in Hiou. unfold tadd_scalar.
  destruct (tdiv (tmap (fun v => v + IoULoss.EPSILON) (IoULoss.op_sum prod))
                 (tmap (fun v => v + IoULoss.EPSILON) u)) as [r|e],
           (tdiv (tmap (fun v => v + IoULoss.EPSILON) (IoULoss.op_sum prod'))
                 (tmap (fun v => v + IoULoss.EPSILON) u')) as [r'|e'];
    cbn in Hiou; try contradiction; [|cbn [bind]; congruence].
  cbn [bind]. rewrite (mean_tsame _ _ Hiou). reflexivity.
Qed.

(** The union exceeds the intersection by the squared distance of the two
    heatmaps. *)
Lemma union_minus_intersection (y_pred y_true : Tensor) (h w : nat) (idx : list nat) :
  IoUSpec.union y_pred y_true h w idx - IoUSpec.intersection y_pred y_true h w idx
  = Rsum h (fun i => Rsum w (fun j =>
      (elem y_true (idx ++ [i; j]) - elem y_pred (idx ++ [i; j])) ^ 2)).
Proof.
  unfold IoUSpec.union, IoUSpec.square_sum, IoUSpec.intersection.
  rewrite <- !Rsum_plus, <- !Rsum_minus. apply Rsum_ext. intros i _.
  rewrite <- !Rsum_plus, <- !Rsum_minus. apply Rsum_ext. intros j _. ring.
Qed.

Lemma union_nonneg (y_pred y_true : Tensor) (h w : nat) (idx : list nat) :
  0 <= IoUSpec.union y_pred y_true h w idx.
Proof.
  unfold IoUSpec.union, IoUSpec.square_sum, IoUSpec.intersection.
  rewrite <- !Rsum_plus, <- !Rsum_minus. apply Rsum_nonneg. intros i _.
  rewrite <- !Rsum_plus, <- !Rsum_minus. apply Rsum_nonneg. intros j _. nra.
Qed.

Lemma intersection_le_union (y_pred y_true : Tensor) (h w : nat) (idx : list nat) :
  IoUSpec.intersection y_pred y_true h w idx <= IoUSpec.union y_pred y_true h w idx.
Proof.
  cut (0 <= IoUSpec.union y_pred y_true h w idx
            - IoUSpec.intersection y_pred y_true h w idx); [lra|].
  rewrite union_minus_intersection.
  apply Rsum_nonneg. intros i _. apply Rsum_nonneg. intros j _.
  apply pow2_ge_0.
Qed.

Lemma iou_at_le_1 (y_pred y_true : Tensor) (h w : nat) (idx : list nat) :
  iou_at y_pred y_true h w idx <= 1.
Proof.
  unfold iou_at.
  pose proof (union_nonneg y_pred y_true h w idx).
  pose proof (intersection_le_union y_pred y_true h w idx).
  apply (Rmult_le_reg_r (IoUSpec.union y_pred y_true h w idx + 1 / 1000000)); [lra|].
  unfold Rdiv at 1. rewrite Rmult_assoc, Rinv_l by lra. lra.
Qed.


Lemma value_is_mean (y_pred y_true : Tensor) (lead : list nat) (h w : nat) :
  numel lead <> O ->
  IoUSpec.value y_pred y_true lead h w
  = Real (1 - sum_over lead (iou_at y_pred y_true h w) / INR (numel lead)).
Proof.
  intros Hn. unfold IoUSpec.value. destruct (numel lead); [contradiction|reflexivity].
Qed.

Lemma sum_over_minus (s : list nat) (f g : list nat -> R) :
  sum_over s (fun idx => f idx - g idx) = sum_over s f - sum_over s g.
Proof.
  revert f g. induction s as [|n s IH]; intros f g; cbn [sum_over]; [reflexivity|].
  rewrite <- Rsum_minus. apply Rsum_ext. intros i _. apply IH.
Qed.

Lemma sum_over_le_numel (s : list nat) (f : list nat -> R) :
  (forall idx, valid s idx -> f idx <= 1) -> sum_over s f <= INR (numel s).
Proof.
  intros Hf.
  assert (H : 0 <= sum_over s (fun idx => 1 - f idx)).
  { apply sum_over_nonneg. intros idx Hv. specialize (Hf idx Hv). lra. }
  rewrite sum_over_minus, sum_over_const in H. lra.
Qed.

Lemma sum_over_full (s : list nat) (f : list nat -> R) :
  (forall idx, valid s idx -> f idx <= 1) -> sum_over s f = INR (numel s) ->
  forall idx, valid s idx -> f idx = 1.
Proof.
  intros Hf Hs idx Hv.
  assert (H : sum_over s (fun idx => 1 - f idx) = 0).
  { rewrite sum_over_minus, sum_over_const, Hs. ring. }
  pose proof (sum_over_zero_terms s (fun idx => 1 - f idx)
                (fun i Hi => ltac:(specialize (Hf i Hi); lra)) H idx Hv) as Hz.
  cbv beta in Hz. lra.
Qed.

Lemma mean_iou_le_1 (y_pred y_true : Tensor) (lead : list nat) (h w : nat) :
  numel lead <> O ->
  sum_over lead (iou_at y_pred y_true h w) / INR (numel lead) <= 1.
Proof.
  intros Hn.
  assert (HN : 0 < INR (numel lead)) by (apply lt_0_INR; lia).
  pose proof (sum_over_le_numel lead (iou_at y_pred y_true h w)
                (fun idx _ => iou_at_le_1 y_pred y_true h w idx)) as Hle.
  apply (Rmult_le_reg_r (INR (numel lead))); [exact HN|].
  unfold Rdiv. rewrite Rmult_assoc, Rinv_l by lra. lra.
Qed.

(** X2: on a prediction and a label of one shape with a non-empty batch, the
    loss is a real number and it is never negative: the intersection never
    exceeds the union. *)
Theorem IoULoss_is_not_negative (y_pred y_true : Tensor) (lead : list nat) (h w : nat) :
  shape y_pred = lead ++ [h; w] ->
  shape y_true = lead ++ [h; w] ->
  numel lead <> O ->
  exists v, IoULoss.forward y_pred y_true = Ok (Real v) /\ 0 <= v.
Proof.
  intros Hp Ht Hn. rewrite (IoULoss_forward_value y_pred y_true lead h w Hp Ht).
  rewrite (value_is_mean y_pred y_true lead h w Hn).
  eexists. split; [reflexivity|].
  pose proof (mean_iou_le_1 y_pred y_true lead h w Hn). lra.
Qed.

Lemma IoULoss_is_not_negative_witness :
  exists v, IoULoss.forward Examples.heatmap_a Examples.heatmap_b = Ok (Real v) /\ 0 <= v.
Proof.
  apply (IoULoss_is_not_negative Examples.heatmap_a Examples.heatmap_b [1%nat] 2%nat 2%nat);
    [reflexivity|reflexivity|cbn; discriminate].
Defined.



(** X4: on a prediction and a label of one shape with a non-empty batch, the
    loss is 0 exactly when the two tensors have the same value at every
    index: any difference, however small, gives a positive loss. *)
Theorem IoULoss_zero_iff_equal (y_pred y_true : Tensor) (lead : list nat) (h w : nat) :
  shape y_pred = lead ++ [h; w] ->
  shape y_true = lead ++ [h; w] ->
  numel lead <> O ->
  IoULoss.forward y_pred y_true = Ok (Real 0)
  <-> (forall idx, valid (lead ++ [h; w]) idx -> elem y_pred idx = elem y_true idx).
Proof.
  intros Hp Ht Hn. rewrite (IoULoss_forward_value y_pred y_true lead h w Hp Ht).
  rewrite (value_is_mean y_pred y_true lead h w Hn).
  assert (HN : 0 < INR (numel lead)) by (apply lt_0_INR; lia).
  split.
  - intros Hv idx Hi. injection Hv as Hv.
    assert (Hsum : sum_over lead (iou_at y_pred y_true h w) = INR (numel lead)).
    { assert (Hq : sum_over lead (iou_at y_pred y_true h w) / INR (numel lead) = 1) by lra.
      apply (Rmult_eq_reg_r (/ INR (numel lead))).
      - rewrite Rinv_r by lra. exact Hq.
      - apply Rinv_neq_0_compat. lra. }
    apply Forall2_app_inv_r in Hi. destruct Hi as (l & ij & Hl & Hij & ->).
    inversion Hij as [|i h' ij' s' Hi Hj']; subst.
    inversion Hj' as [|j w' ij'' s'' Hj Hnil]; subst.
    inversion Hnil; subst.
    pose proof (sum_over_full lead (iou_at y_pred y_true h w)
                  (fun idx _ => iou_at_le_1 y_pred y_true h w idx) Hsum l Hl) as H1.
    unfold iou_at in H1.
    pose proof (union_nonneg y_pred y_true h w l) as HU.
    assert (Hd : IoUSpec.union y_pred y_true h w l
                 - IoUSpec.intersection y_pred y_true h w l = 0).
    { apply (f_equal (fun z => z * (IoUSpec.union y_pred y_true h w l + 1 / 1000000)))
        in H1.
      unfold Rdiv at 1 in H1. rewrite Rmult_assoc, Rinv_l in H1 by lra. lra. }
    rewrite union_minus_intersection in Hd.
    pose proof (Rsum_zero_terms h _
                  (fun i _ => Rsum_nonneg w _ (fun j _ => pow2_ge_0 _)) Hd i Hi) as Hrow.
    cbv beta in Hrow.
    pose proof (Rsum_zero_terms w _ (fun j _ => pow2_ge_0 _) Hrow j Hj) as Hz.
    cbv beta in Hz.
    assert (elem y_true (l ++ [i; j]) - elem y_pred (l ++ [i; j]) = 0).
    { destruct (Req_dec (elem y_true (l ++ [i; j]) - elem y_pred (l ++ [i; j])) 0)
        as [E|E]; [exact E|].
      apply (pow_nonzero _ 2) in E. contradiction. }
    lra.
  - intros Heq. do 2 f_equal.
    rewrite (sum_over_ext lead (iou_at y_pred y_true h w) (fun _ => 1)).
    + rewrite sum_over_const. field. lra.
    + intros idx Hv. unfold iou_at.
      pose proof (union_nonneg y_pred y_true h w idx) as HU.
      assert (Hd : IoUSpec.union y_pred y_true h w idx
                   - IoUSpec.intersection y_pred y_true h w idx = 0).
      { rewrite union_minus_intersection.
        rewrite (Rsum_ext h _ (fun _ => 0)); [rewrite Rsum_const; ring|].
        intros i Hi. rewrite (Rsum_ext w _ (fun _ => 0)); [rewrite Rsum_const; ring|].
        intros j Hj. rewrite (Heq (idx ++ [i; j])) by (apply valid_last_two; assumption).
        ring. }
      replace (IoUSpec.intersection y_pred y_true h w idx)
        with (IoUSpec.union y_pred y_true h w idx) by lra.
      field. lra.
Qed.

Lemma IoULoss_zero_iff_equal_witness :
  IoULoss.forward Examples.heatmap_a Examples.heatmap_a = Ok (Real 0)
  <-> (forall idx, valid ([1%nat] ++ [2%nat; 2%nat]) idx ->
         elem Examples.heatmap_a idx = elem Examples.heatmap_a idx).
Proof.
  apply (IoULoss_zero_iff_equal Examples.heatmap_a Examples.heatmap_a [1%nat] 2%nat 2%nat);
    [reflexivity|reflexivity|cbn; discriminate].
Defined.

End IoULossMore.

(* ================================================================== *)
(** * More about the model *)

Section ModelMore.

Local Open Scope R_scope.

Lemma broadcast_rev_mismatch (x y : nat) (a b : list nat) :
  x <> y -> x <> 1%nat -> y <> 1%nat -> broadcast_rev (x :: a) (y :: b) = None.
Proof.
  intros Hxy Hx Hy. cbn [broadcast_rev]. destruct (broadcast_rev a b); [|reflexivity].
  destruct (Nat.eqb_spec x y); [contradiction|].
  destruct (Nat.eqb_spec x 1); [contradiction|].
  destruct (Nat.eqb_spec y 1); [contradiction|reflexivity].
Qed.

(** Two tensors whose last axes differ, neither of size 1, cannot be
    multiplied: the loss raises at its first product. *)
Lemma IoULoss_last_axes_mismatch (y_pred y_true : Tensor) (lp lt : list nat) (k w : nat) :
  shape y_pred = lp ++ [k] -> shape y_true = lt ++ [w] ->
  w <> k -> w <> 1%nat -> k <> 1%nat ->
  IoULoss.forward y_pred y_true
  = Raise (RuntimeError "The size of tensor a must match the size of tensor b").
Proof.
  intros Hp Ht Hwk Hw Hk. unfold IoULoss.forward, tmul, ewise, broadcast_shapes.
  rewrite Hp, Ht, !rev_app_distr. cbn [rev app].
  rewrite (broadcast_rev_mismatch w k (rev lt) (rev lp) Hwk Hw Hk). reflexivity.
Qed.

(** X5: the output of the model cannot be scored against heatmaps by the
    loss of this repository: for labels of shape (b, out_channels, h, w)
    whose width is neither 1 nor out_channels (and out_channels is not 1),
    the forward pass returns a (b, out_channels) tensor and
    [IoULoss.forward] on it and the labels raises a RuntimeError at the
    product of the two. *)
Theorem IoULoss_of_ViT_output_and_heatmaps_raises (theta : state_dict) (GELU : R -> R)
    (in_channels patch_size emb_size img_size depth out_channels : nat)
    (kw : kwargs) (vit : ViT.t) (x : Tensor) (b : nat)
    (y_true : Tensor) (h w : nat) :
  ViT.init theta GELU in_channels patch_size emb_size img_size depth out_channels kw
    = Ok vit ->
  (patch_size <= img_size)%nat ->
  emb_size = 768%nat ->
  default 8%nat (kw_num_heads kw) <> O ->
  (768 mod default 8%nat (kw_num_heads kw) = O)%nat ->
  shape x = [b; in_channels; img_size; img_size] ->
  shape y_true = [b; out_channels; h; w] ->
  w <> out_channels -> w <> 1%nat -> out_channels <> 1%nat ->
  exists out,
    ViT.forward vit x = Ok out
    /\ IoULoss.forward out y_true
       = Raise (RuntimeError "The size of tensor a must match the size of tensor b").
Proof.
  intros Hinit Hle He Hh Hm Hs Ht Hwk Hw Hk.
  destruct (ViT_forward_shape theta GELU in_channels patch_size emb_size img_size depth
              out_channels kw vit x b Hinit Hle He Hh Hm Hs) as (out & Hout & Hshape).
  exists out. split; [exact Hout|].
  apply (IoULoss_last_axes_mismatch out y_true [b] [b; out_channels; h] out_channels w);
    assumption.
Qed.

Lemma IoULoss_of_ViT_output_and_heatmaps_raises_witness :
  exists vit,
    ViT.init Examples.halves (fun v => v) 3 32 768 224 12 21 no_kwargs = Ok vit
    /\ exists out,
         ViT.forward vit Examples.image = Ok out
         /\ IoULoss.forward out Examples.labels
            = Raise (RuntimeError "The size of tensor a must match the size of tensor b").
Proof.
  eexists. split; [reflexivity|].
  assert (Hfit : (32 <= 224)%nat) by lia.
  assert (Hheads : default 8%nat (kw_num_heads no_kwargs) <> O) by discriminate.
  assert (H1 : 224%nat <> 21%nat) by discriminate.
  assert (H2 : 224%nat <> 1%nat) by discriminate.
  assert (H3 : 21%nat <> 1%nat) by discriminate.
  match goal with
  | |- exists out, ViT.forward ?vit _ = _ /\ _ =>
      exact (IoULoss_of_ViT_output_and_heatmaps_raises Examples.halves (fun v => v)
               3 32 768 224 12 21 no_kwargs vit Examples.image 1
               Examples.labels 224 224
               eq_refl Hfit eq_refl Hheads eq_refl eq_refl eq_refl H1 H2 H3)
  end.
Defined.

(** X6: [PatchEmbedding.forward] accepts an image of another size than the
    one it was built for exactly when it has the same number of patches:
    the position embedding has one row per patch of the configured image
    size, and the sum with it raises a RuntimeError otherwise. *)
Theorem PatchEmbedding_forward_needs_the_patch_count (prefix : string) (theta : state_dict)
    (in_channels patch_size emb_size img_size : nat) (pe : PatchEmbedding.t)
    (x : Tensor) (b H W : nat) :
  PatchEmbedding.init prefix theta in_channels patch_size emb_size img_size = Ok pe ->
  (patch_size <= img_size)%nat ->
  (patch_size <= H)%nat -> (patch_size <= W)%nat ->
  shape x = [b; in_channels; H; W] ->
  let g := (img_size / patch_size)%nat in
  let n := (H / patch_size * (W / patch_size))%nat in
  (n = (g * g)%nat ->
     exists out, PatchEmbedding.forward pe x = Ok out
                 /\ shape out = [b; (1 + g * g)%nat; emb_size])
  /\ (n <> (g * g)%nat ->
        PatchEmbedding.forward pe x
        = Raise (RuntimeError "The size of tensor a must match the size of tensor b")).
Proof.
  intros Hinit Hle HH HW Hs g n.
  destruct (PatchEmbedding_init_ok _ _ _ _ _ _ _ Hinit) as (Hp & Hps & Hproj & Hct & Hpos).
  assert (Hg : (1 <= g)%nat).
  { unfold g. apply Nat.div_le_lower_bound; lia. }
  assert (Hn : (1 <= n)%nat).
  { unfold n.
    assert (1 <= H / patch_size)%nat by (apply Nat.div_le_lower_bound; lia).
    assert (1 <= W / patch_size)%nat by (apply Nat.div_le_lower_bound; lia).
    nia. }
  split; intros E.
  all: unfold PatchEmbedding.forward, torch.shape0; rewrite Hs; cbn [bind Sequential].
  all: rewrite Hproj; unfold Conv2d.forward at 1; rewrite Hs.
  all: cbn [Conv2d.init Conv2d.in_channels Conv2d.stride Conv2d.kernel_size
            Conv2d.out_channels Conv2d.weight Conv2d.bias].
  all: rewrite Nat.eqb_refl; cbn [negb].
  all: destruct (Nat.eqb_spec patch_size 0) as [|_]; [contradiction|].
  all: destruct (Nat.ltb_spec H patch_size) as [|_]; [lia|].
  all: destruct (Nat.ltb_spec W patch_size) as [|_]; [lia|]; cbn [orb bind].
  all: rewrite (conv_grid H patch_size Hp HH), (conv_grid W patch_size Hp HW); fold n.
  all: unfold einops.rearrange_b_e_h_w__b_hw_e at 1; cbn [shape bind]; fold n.
  all: unfold einops.repeat_1_n_e__b_n_e; rewrite Hct; cbn [Nat.eqb bind].
  all: unfold torch.cat1; cbn [shape]; rewrite Nat.eqb_refl.
  all: destruct (list_eq_dec Nat.eq_dec [emb_size] [emb_size]) as [_|]; [|contradiction].
  all: cbn [andb bind].
  all: unfold iadd; cbn [shape]; rewrite Hpos; fold g.
  all: unfold broadcast_shapes; cbn [rev app broadcast_rev].
  all: rewrite Nat.eqb_refl.
  all: replace (g ^ 2 + 1)%nat with (1 + g * g)%nat by (cbn [Nat.pow]; lia).
  - rewrite E, Nat.eqb_refl. cbn [option_map rev app].
    destruct (list_eq_dec Nat.eq_dec [b; (1 + g * g)%nat; emb_size]
                [b; (1 + g * g)%nat; emb_size]) as [_|]; [|contradiction].
    cbn [bind]. eexists. split; reflexivity.
  - destruct (Nat.eqb_spec (1 + n) (1 + g * g)) as [|_]; [lia|].
    destruct (Nat.eqb_spec (1 + n) 1) as [|_]; [lia|].
    destruct (Nat.eqb_spec (1 + g * g) 1) as [|_]; [nia|].
    reflexivity.
Qed.

Lemma PatchEmbedding_forward_needs_the_patch_count_witness :
  exists pe,
    PatchEmbedding.init "" Examples.halves 1 2 3 4 = Ok pe
    /\ (exists out, PatchEmbedding.forward pe Examples.small_images = Ok out
                    /\ shape out = [2; 5; 3]%nat)
    /\ PatchEmbedding.forward pe Examples.wide_images
       = Raise (RuntimeError "The size of tensor a must match the size of tensor b").
Proof.
  eexists. split; [reflexivity|].
  assert (H24 : (2 <= 4)%nat) by lia.
  assert (H26 : (2 <= 6)%nat) by lia.
  split.
  - match goal with
    | |- exists out, PatchEmbedding.forward ?pe _ = _ /\ _ =>
        exact (proj1 (PatchEmbedding_forward_needs_the_patch_count ""%string
                        Examples.halves 1 2 3 4 pe Examples.small_images 2 4 4
                        eq_refl H24 H24 H24 eq_refl) eq_refl)
    end.
  - match goal with
    | |- PatchEmbedding.forward ?pe _ = _ =>
        apply (proj2 (PatchEmbedding_forward_needs_the_patch_count ""%string
                        Examples.halves 1 2 3 4 pe Examples.wide_images 2 4 6
                        eq_refl H24 H24 H26 eq_refl))
    end.
    cbn. discriminate.
Defined.




(** X8: whatever the parameters and the input, the attention weights of
    [MultiHeadAttention.forward] are normalised across the heads: for every
    image, query and key, the weights of all heads sum to
    1 / sqrt(emb_size). *)
Theorem MultiHeadAttention_weights_sum_over_heads (prefix : string) (theta : state_dict)
    (e h : nat) (p : R) (x : Tensor) (b n : nat) :
  h <> O -> e mod h = O -> shape x = [b; n; e] ->
  exists att v,
    MultiHeadAttention.attention (MultiHeadAttention.init prefix theta e h p) x None
      = Ok (att, v)
    /\ shape att = [b; h; n; n]
    /\ forall bi q k, Rsum h (fun hi => elem att [bi; hi; q; k]) = 1 / sqrt (INR e).
Proof.
  intros Hh Hm Hs.
  destruct (MultiHeadAttention_attention_spec prefix theta e h p x None b n Hh Hm Hs)
    as (att & v & H1 & H2 & _ & H3).
  exists att, v. repeat split; assumption.
Qed.

Lemma MultiHeadAttention_weights_sum_over_heads_witness :
  exists att v,
    MultiHeadAttention.attention
      (MultiHeadAttention.init "" Examples.halves 4 2 0%R) Examples.tokens None
      = Ok (att, v)
    /\ shape att = [1; 2; 3; 3]%nat
    /\ forall bi q k, Rsum 2 (fun hi => elem att [bi; hi; q; k]) = 1 / sqrt (INR 4).
Proof.
  assert (H2 : 2%nat <> O) by discriminate.
  exact (MultiHeadAttention_weights_sum_over_heads ""%string Examples.halves 4 2 0%R
           Examples.tokens 1 3 H2 eq_refl eq_refl).
Defined.





(** X11: a [TransformerEncoder] of any depth, built with any keywords whose
    number of heads divides the embedding size, returns a tensor of the
    shape of its input (b, n, emb_size); it never raises on such an input. *)
Theorem TransformerEncoder_keeps_the_shape (prefix : string) (theta : state_dict)
    (GELU : R -> R) (depth : nat) (kw : kwargs) (x : Tensor) (b n : nat) :
  default 8%nat (kw_num_heads kw) <> O ->
  (default 768 (kw_emb_size kw) mod default 8 (kw_num_heads kw) = O)%nat ->
  shape x = [b; n; default 768%nat (kw_emb_size kw)] ->
  exists out,
    TransformerEncoder.forward (TransformerEncoder.init prefix theta GELU depth kw) x
      = Ok out
    /\ shape out = shape x.
Proof.
  intros Hh Hm Hs.
  destruct (TransformerEncoder_forward_shape prefix theta GELU depth kw x b n Hh Hm Hs)
    as (out & Hout & Hshape).
  exists out. split; [exact Hout|congruence].
Qed.

Lemma TransformerEncoder_keeps_the_shape_witness :
  exists out,
    TransformerEncoder.forward
      (TransformerEncoder.init "" Examples.halves (fun v => v) 3 Examples.narrow)
      Examples.tokens = Ok out
    /\ shape out = shape Examples.tokens.
Proof.
  assert (H2 : default 8%nat (kw_num_heads Examples.narrow) <> O) by discriminate.
  exact (TransformerEncoder_keeps_the_shape ""%string Examples.halves (fun v => v) 3
           Examples.narrow Examples.tokens 1 3 H2 eq_refl eq_refl).
Defined.

(** X12: the encoder of a [ViT] is always 768 wide, whatever [emb_size] the
    model is built with: with another embedding size and at least one
    block, the forward pass raises a RuntimeError at the first LayerNorm of
    the encoder, for every batch of images of the configured size. *)
Theorem ViT_needs_the_default_width (theta : state_dict) (GELU : R -> R)
    (in_channels patch_size emb_size img_size depth out_channels : nat)
    (kw : kwargs) (vit : ViT.t) (x : Tensor) (b : nat) :
  ViT.init theta GELU in_channels patch_size emb_size img_size (S depth) out_channels kw
    = Ok vit ->
  (patch_size <= img_size)%nat ->
  emb_size <> 768%nat ->
  shape x = [b; in_channels; img_size; img_size] ->
  ViT.forward vit x
  = Raise (RuntimeError "Given normalized_shape, expected input with matching shape").
Proof.
  intros Hinit Hle He Hs. unfold ViT.init in Hinit.
  destruct (PatchEmbedding.init "0." theta in_channels patch_size emb_size img_size)
    as [pe|err] eqn:Hpe; [|discriminate].
  cbn [bind] in Hinit. injection Hinit as <-.
  unfold ViT.forward. cbn [ViT.embedding ViT.encoder ViT.head Sequential].
  destruct (PatchEmbedding_forward_spec "0." theta in_channels patch_size emb_size
              img_size pe x b Hpe Hle Hs) as (tokens & -> & Htok & _).
  cbn [bind].
  unfold TransformerEncoder.forward, TransformerEncoder.init.
  cbn [seq map Sequential].
  unfold EncoderBlock.forward at 1. cbn [Sequential].
  unfold ResidualAdd.forward at 1. cbn [Sequential].
  unfold LayerNorm.forward at 1. rewrite Htok.
  cbn [last EncoderBlock.init EncoderBlock.norm1 LayerNorm.init
       LayerNorm.normalized_shape kw_emb_size default].
  destruct (Nat.eqb_spec emb_size 768) as [|_]; [contradiction|].
  reflexivity.
Qed.

Lemma ViT_needs_the_default_width_witness :
  exists vit,
    ViT.init Examples.halves (fun v => v) 3 32 512 224 1 50 no_kwargs = Ok vit
    /\ ViT.forward vit Examples.image
       = Raise (RuntimeError "Given normalized_shape, expected input with matching shape").
Proof.
  eexists. split; [reflexivity|].
  assert (Hfit : (32 <= 224)%nat) by lia.
  assert (Hne : 512%nat <> 768%nat) by discriminate.
  match goal with
  | |- ViT.forward ?vit _ = _ =>
      exact (ViT_needs_the_default_width Examples.halves (fun v => v)
               3 32 512 224 0 50 no_kwargs vit Examples.image 1
               eq_refl Hfit Hne eq_refl)
  end.
Defined.



End ModelMore.

(* ================================================================== *)
(** * More about the training loop *)

Section TrainMore.

Variable scheduler_t : Type.
Variable scheduler_step : scheduler_t -> Q -> scheduler_t.
Variable world : passes.

(** A stall that ends at epoch [e] began after the first
    [early_stopping_avg] epochs. *)
Lemma stall_le (avg : nat) (prec : Z) (e : nat) :
  (stall world avg prec e <= S e - avg)%nat.
Proof.
  induction e as [|e IH]; cbn [TrainSpec.stall].
  - destruct (failed world avg prec 0) eqn:F; [|lia].
    unfold TrainSpec.failed in F. apply andb_prop in F. destruct F as [F _].
    apply Nat.leb_le in F. lia.
  - destruct (failed world avg prec (S e)) eqn:F; [|lia].
    unfold TrainSpec.failed in F. apply andb_prop in F. destruct F as [F _].
    apply Nat.leb_le in F. lia.
Qed.

Lemma exhausted_late (avg : nat) (prec : Z) (E e : nat) :
  exhausted world avg prec E e = true -> (avg + E <= e)%nat.
Proof.
  unfold TrainSpec.exhausted. intros H. apply Nat.ltb_lt in H.
  pose proof (stall_le avg prec e). lia.
Qed.

Lemma epochs_done_ge (epochs avg : nat) (prec : Z) (E : nat) :
  (Nat.min epochs (avg + E + 1) <= epochs_done world epochs avg prec E)%nat.
Proof.
  unfold TrainSpec.epochs_done.
  destruct (find (exhausted world avg prec E) (seq 0 epochs)) as [e|] eqn:F; [|lia].
  apply find_seq_first in F. destruct F as (_ & Hex & _).
  apply exhausted_late in Hex. lia.
Qed.

(** No epoch before the last one that ran was exhausted. *)
Lemma epochs_done_first (epochs avg : nat) (prec : Z) (E e : nat) :
  (S e < epochs_done world epochs avg prec E)%nat ->
  exhausted world avg prec E e = false.
Proof.
  unfold TrainSpec.epochs_done.
  destruct (find (exhausted world avg prec E) (seq 0 epochs)) as [e0|] eqn:F; intros H.
  - apply find_seq_first in F. destruct F as (_ & _ & Hfirst). apply Hfirst. lia.
  - apply (find_seq_none _ _ _ F). lia.
Qed.



(** X15: early stopping cannot end a run before epoch
    [early_stopping_avg + early_stopping_epochs + 1]: [train] runs at least
    that many epochs, or all the configured ones when there are fewer. *)
Theorem train_runs_at_least (epochs checkpoint_frequency early_stopping_avg : nat)
    (early_stopping_precision : Z) (early_stopping_epochs : nat)
    (sched : option scheduler_t) :
  checkpoint_frequency <> O ->
  early_stopping_avg <> O ->
  let run := train scheduler_step world epochs checkpoint_frequency early_stopping_avg
                   early_stopping_precision early_stopping_epochs sched in
  (Nat.min epochs (early_stopping_avg + early_stopping_epochs + 1)
   <= epochs_run (fst run) <= epochs)%nat.
Proof.
  intros Hf Ha run. subst run.
  rewrite (train_state_after scheduler_t scheduler_step world epochs checkpoint_frequency
             early_stopping_avg early_stopping_precision early_stopping_epochs Hf Ha).
  cbn [fst]. rewrite epochs_run_state_after.
  split; [apply epochs_done_ge|apply epochs_done_le].
Qed.

(** X16: with [checkpoint_frequency = 0] and at least one epoch to run,
    [train] raises a ZeroDivisionError in its first epoch, after the two
    passes, the report and the scheduler step of that epoch; nothing is
    saved, the final checkpoint included. *)
Theorem train_with_zero_frequency_raises (epochs early_stopping_avg : nat)
    (early_stopping_precision : Z) (early_stopping_epochs : nat)
    (sched : option scheduler_t) :
  epochs <> O ->
  let run := train scheduler_step world epochs 0 early_stopping_avg
                   early_stopping_precision early_stopping_epochs sched in
  snd run = Raise ZeroDivisionError
  /\ log (fst run)
     = [EpochTrain 0; EpochEval 0;
        Report 1 epochs (np.round (train_pass world 0) 10)
               (np.round (eval_pass world 0) 10)]
       ++ (if is_some sched then [SchedulerStep (train_pass world 0)] else [])
  /\ filter is_save (log (fst run)) = [].
Proof.
  intros He run. subst run. unfold Main.train. destruct epochs as [|n]; [contradiction|].
  cbn [seq Main.loop]. unfold Main.body, checkpoint.
  destruct sched; repeat split; reflexivity.
Qed.

(** X17: with [early_stopping_avg = 0], a checkpoint frequency that is not
    zero and at least one epoch to run, [train] raises an UnboundLocalError
    in its first epoch: [min_val_loss] is read before any assignment to it.
    The checkpoint of that epoch, if one is due, has been written; the final
    one has not. *)
Theorem train_with_zero_window_raises (epochs checkpoint_frequency : nat)
    (early_stopping_precision : Z) (early_stopping_epochs : nat)
    (sched : option scheduler_t) :
  epochs <> O ->
  checkpoint_frequency <> O ->
  let run := train scheduler_step world epochs checkpoint_frequency 0
                   early_stopping_precision early_stopping_epochs sched in
  snd run = Raise (UnboundLocalError "min_val_loss")
  /\ epochs_run (fst run) = 1%nat
  /\ filter is_save (log (fst run))
     = if (checkpoint_frequency =? 1)%nat then [Save "weights/ViT_model_001"] else [].
Proof.
  intros He Hf run. subst run.
  destruct (train_zero_avg scheduler_t scheduler_step world epochs
              checkpoint_frequency 0 early_stopping_precision early_stopping_epochs
              sched He Hf eq_refl) as (st & -> & Hrun & Hsaves).
  cbn [fst snd]. split; [reflexivity|]. split; [exact Hrun|].
  rewrite Hsaves.
  destruct (Nat.eqb_spec checkpoint_frequency 1) as [->|Hne]; [reflexivity|].
  rewrite Nat.mod_small by lia. reflexivity.
Qed.

End TrainMore.


Lemma train_runs_at_least_witness :
  let run := train Examples.no_step Examples.flat 5 2 1 5 1 None in
  (Nat.min 5 (1 + 1 + 1) <= epochs_run (fst run) <= 5)%nat.
Proof.
  apply (train_runs_at_least unit Examples.no_step Examples.flat 5 2 1 5 1 None);
    discriminate.
Defined.

Lemma train_with_zero_frequency_raises_witness :
  let run := train Examples.no_step Examples.flat 5 0 1 5 1 None in
  snd run = Raise ZeroDivisionError
  /\ log (fst run)
     = [EpochTrain 0; EpochEval 0;
        Report 1 5 (np.round (train_pass Examples.flat 0) 10)
               (np.round (eval_pass Examples.flat 0) 10)]
       ++ (if is_some (@None unit) then [SchedulerStep (train_pass Examples.flat 0)]
           else [])
  /\ filter is_save (log (fst run)) = [].
Proof.
  apply (train_with_zero_frequency_raises unit Examples.no_step Examples.flat 5 1 5 1 None);
    discriminate.
Defined.

Lemma train_with_zero_window_raises_witness :
  let run := train Examples.no_step Examples.flat 5 1 0 5 1 None in
  snd run = Raise (UnboundLocalError "min_val_loss")
  /\ epochs_run (fst run) = 1%nat
  /\ filter is_save (log (fst run))
     = if (1 =? 1)%nat then [Save "weights/ViT_model_001"] else [].
Proof.
  apply (train_with_zero_window_raises unit Examples.no_step Examples.flat 5 1 5 1 None);
    discriminate.
Defined.

Section TrainPlateau.

Variable scheduler_t : Type.
Variable scheduler_step : scheduler_t -> Q -> scheduler_t.
Variable world : passes.









(** X19: "Stopping early" is printed at most once, and nothing but the
    final checkpoint follows it: when [checkpoint_frequency] and
    [early_stopping_avg] are not zero, the log of [train] ends with the
    final checkpoint, preceded or not by "Stopping early", and holds no
    other "Stopping early". *)
Theorem stopping_early_comes_last (epochs checkpoint_frequency early_stopping_avg : nat)
    (early_stopping_precision : Z) (early_stopping_epochs : nat)
    (sched : option scheduler_t) :
  checkpoint_frequency <> O ->
  early_stopping_avg <> O ->
  let run := train scheduler_step world epochs checkpoint_frequency early_stopping_avg
                   early_stopping_precision early_stopping_epochs sched in
  exists before,
    ~ In StopEarly before
    /\ (log (fst run) = before ++ [Save "weights/ViT_model_final.pth"]
        \/ log (fst run) = before ++ [StopEarly; Save "weights/ViT_model_final.pth"]).
Proof.
  intros Hf Ha run. subst run.
  rewrite (train_state_after scheduler_t scheduler_step world epochs checkpoint_frequency
             early_stopping_avg early_stopping_precision early_stopping_epochs Hf Ha).
  cbn [fst emit log TrainSpec.state_after].
  pose proof (epochs_done_first world epochs early_stopping_avg early_stopping_precision
                early_stopping_epochs) as Hfirst.
  destruct (epochs_done world epochs early_stopping_avg early_stopping_precision
              early_stopping_epochs) as [|k].
  - exists []. split; [intros []|]. left. reflexivity.
  - rewrite seq_S, map_app, concat_app. cbn [Nat.add map List.concat].
    rewrite app_nil_r.
    set (past := List.concat
                   (map (epoch_log world epochs checkpoint_frequency early_stopping_avg
                           early_stopping_precision early_stopping_epochs
                           (is_some sched)) (seq 0 k))).
    assert (Hpast : ~ In StopEarly past).
    { unfold past. rewrite stop_logged. intros (e & Hlt & He).
      rewrite Hfirst in He by lia. discriminate. }
    unfold TrainSpec.epoch_log.
    set (head := [EpochTrain k; EpochEval k;
                  Report (k + 1) epochs (np.round (train_pass world k) 10)
                         (np.round (eval_pass world k) 10)]
                 ++ (if is_some sched then [SchedulerStep (train_pass world k)] else [])
                 ++ (if ((k + 1) mod checkpoint_frequency =? 0)%nat
                     then [Save (checkpoint_path k)] else [])).
    assert (Hhead : ~ In StopEarly head).
    { unfold head. rewrite !in_app_iff.
      destruct (is_some sched), ((k + 1) mod checkpoint_frequency =? 0)%nat;
        cbn [In]; intros H;
        repeat match goal with
               | H : _ \/ _ |- _ => destruct H as [H|H]
               | H : _ = StopEarly |- _ => discriminate H
               | H : False |- _ => contradiction
               end. }
    exists (past ++ head). split.
    { rewrite in_app_iff. tauto. }
    destruct (exhausted world early_stopping_avg early_stopping_precision
                early_stopping_epochs k); [right|left];
      unfold head; rewrite <- ?app_assoc; cbn [app]; rewrite ?app_nil_r;
      reflexivity.
Qed.

End TrainPlateau.


Lemma stopping_early_comes_last_witness :
  let run := train Examples.no_step Examples.flat 5 2 1 5 1 None in
  exists before,
    ~ In StopEarly before
    /\ (log (fst run) = before ++ [Save "weights/ViT_model_final.pth"]
        \/ log (fst run) = before ++ [StopEarly; Save "weights/ViT_model_final.pth"]).
Proof.
  apply (stopping_early_comes_last unit Examples.no_step Examples.flat 5 2 1 5 1 None);
    discriminate.
Defined.

(* ================================================================== *)
(** * The names of the checkpoints *)

Section CheckpointNames.

Lemma strip_prefix_app (p s : string) : strip_prefix p (p ++ s) = Some s.
Proof.
  induction p as [|a p IH]; [reflexivity|].
  cbn [String.append strip_prefix]. rewrite Ascii.eqb_refl. exact IH.
Qed.

Lemma concat_zeros (k : nat) :
  String.concat "" (repeat "0"%string (S k))
  = String "0" (String.concat "" (repeat "0"%string k)).
Proof. destruct k; reflexivity. Qed.

Lemma of_uint_zeros (k : nat) (s : string) (d : Decimal.uint) :
  NilEmpty.uint_of_string s = Some d ->
  exists d', NilEmpty.uint_of_string (String.concat "" (repeat "0"%string k) ++ s) = Some d'
             /\ Nat.of_uint d' = Nat.of_uint d.
Proof.
  intros Hs. induction k as [|k (d' & Hd' & Hn)].
  - exists d. split; [exact Hs|reflexivity].
  - exists (Decimal.D0 d'). rewrite concat_zeros. cbn [String.append].
    cbn [NilEmpty.uint_of_string]. rewrite Hd'. split; [reflexivity|exact Hn].
Qed.

Lemma of_uint_str (n : nat) :
  exists d, NilEmpty.uint_of_string (str n) = Some d /\ Nat.of_uint d = n.
Proof.
  unfold str, NilZero.string_of_uint.
  pose proof (DecimalNat.Unsigned.of_to n) as Hn.
  destruct (Nat.to_uint n) as [| | | | | | | | | |] eqn:E;
    try (eexists; split; [apply NilEmpty.usu|exact Hn]).
  exists (Decimal.D0 Decimal.Nil). split; [reflexivity|exact Hn].
Qed.

Lemma epoch_of_checkpoint_path (e : nat) : epoch_of_path (checkpoint_path e) = Some e.
Proof.
  unfold epoch_of_path, checkpoint_path. rewrite strip_prefix_app. unfold zfill.
  destruct (of_uint_str (e + 1)) as (d & Hd & Hn).
  destruct (of_uint_zeros (3 - String.length (str (e + 1))) _ _ Hd) as (d' & -> & Hn').
  rewrite Hn', Hn, Nat.add_1_r. reflexivity.
Qed.

(** X20: the name of a periodic checkpoint identifies its epoch: the number
    in the name, read back, is the 1-based index of the epoch, whatever the
    padding; two epochs never write to the same file; and no periodic
    checkpoint has the name of the final one. *)
Theorem checkpoint_names_identify_the_epoch (e : nat) :
  epoch_of_path (checkpoint_path e) = Some e
  /\ (forall e', checkpoint_path e = checkpoint_path e' -> e = e')
  /\ checkpoint_path e <> "weights/ViT_model_final.pth"%string.
Proof.
  split; [apply epoch_of_checkpoint_path|]. split.
  - intros e' H. apply (f_equal epoch_of_path) in H.
    rewrite !epoch_of_checkpoint_path in H. congruence.
  - intros H. apply (f_equal epoch_of_path) in H.
    rewrite epoch_of_checkpoint_path in H. discriminate H.
Qed.

End CheckpointNames.

(* ================================================================== *)
(** * More about main *)

Section MainMore.

Variable world : passes.


Lemma store_read_by_main (a b : Namespace) (o : cli_option) :
  args_train a = args_train b -> args_show_data a = args_show_data b ->
  args_train (store a o) = args_train (if read_by_main o then store b o else b)
  /\ args_show_data (store a o)
     = args_show_data (if read_by_main o then store b o else b).
Proof. intros H1 H2. destruct o; cbn; auto. Qed.

Lemma parse_read_by_main (argv : list cli_option) (a b : Namespace) :
  args_train a = args_train b -> args_show_data a = args_show_data b ->
  args_train (fold_left store argv a)
  = args_train (fold_left store (filter read_by_main argv) b)
  /\ args_show_data (fold_left store argv a)
     = args_show_data (fold_left store (filter read_by_main argv) b).
Proof.
  revert a b. induction argv as [|o argv IH]; intros a b H1 H2; [split; assumption|].
  cbn [fold_left filter].
  destruct (store_read_by_main a b o H1 H2) as [H1' H2'].
  destruct (read_by_main o); cbn [fold_left]; apply IH; assumption.
Qed.

(** X22: [main] reads two options only, [--train] and [--show-data]: a
    command line and the same command line without every [--test],
    [--inference], [--weights], [--epochs] and [--visualize] give the same
    run. *)
Theorem main_reads_two_options (argv : list cli_option) :
  main world (parse_args argv) = main world (parse_args (filter read_by_main argv)).
Proof.
  destruct (parse_read_by_main argv defaults defaults eq_refl eq_refl) as [H1 H2].
  unfold main, parse_args. rewrite H1, H2. reflexivity.
Qed.

(** X23: the run [main] starts with [--train] goes through at least 21 of
    its 1000 epochs, whatever the losses: early stopping needs a window of
    10 epochs and more than 10 failures in a row. *)
Theorem main_trains_at_least_21_epochs :
  (21 <= epochs_run (fst (main_train world)) <= 1000)%nat
  /\ forall args, args_train args = true ->
       forall e, (e < 21)%nat -> In (EpochTrain e) (fst (main world args)).
Proof.
  pose proof (epochs_done_ge world 1000 10 5 10) as Hge.
  pose proof (epochs_done_le world 1000 10 5 10) as Hle.
  assert (H21 : (21 <= epochs_done world 1000 10 5 10)%nat).
  { apply (Nat.le_trans _ (Nat.min 1000 (10 + 10 + 1))); [|exact Hge].
    apply Nat.min_glb; [|apply Nat.le_refl].
    apply Nat.leb_le. reflexivity. }
  split.
  - rewrite main_train_run. cbn [fst]. rewrite epochs_run_state_after.
    split; assumption.
  - intros args Ht e He.
    assert (Hin : In (EpochTrain e)
                    (List.concat
                       (map (epoch_log world 1000 100 10 5 10 true)
                            (seq 0 (epochs_done world 1000 10 5 10))))).
    { apply in_concat. exists (epoch_log world 1000 100 10 5 10 true e). split.
      - apply in_map, in_seq. split; [apply Nat.le_0_l|].
        cbn [Nat.add]. apply (Nat.lt_le_trans _ 21); [exact He|exact H21].
      - unfold TrainSpec.epoch_log. left. reflexivity. }
    unfold main. rewrite Ht, main_train_run.
    cbn [emit log TrainSpec.state_after fst snd is_some].
    generalize dependent (List.concat
                       (map (epoch_log world 1000 100 10 5 10 true)
                            (seq 0 (epochs_done world 1000 10 5 10)))).
    intros l Hin. rewrite !in_app_iff. tauto.
Qed.

End MainMore.
